(** * JWT_AUTH: token lifecycle of the authentication server

    A shallow embedding of the TypeScript sources under [src/]: the entities,
    [JwtUtil], [TokenBlacklist], [MongoUserRepository], the five use cases
    ([RegisterUseCase], [LoginUseCase], [RefreshTokenUseCase],
    [LogoutUseCase], [GetUserUseCase]), [AuthMiddleware], [AuthController],
    [ErrorMiddleware], the routes of [authRoutes.ts] and the start-up of
    [index.ts]; followed by the properties of the token lifecycle that are
    proved of them.

    Conventions.
    - Time is counted in whole seconds since the epoch, the unit of
      [Math.floor(Date.now() / 1000)] and of the [iat]/[exp] claims.
    - An [await] on a store call is one atomic access to that store; the
      synchronous code up to the next [await] runs without interruption.
    - MongoDB and Redis are shared state of the [World]; each of them may
      be unreachable, in which case a call on it rejects (throws).
    - The packages [jsonwebtoken], [ms], [mongoose] and [redis] are
      modelled by what the sources use of them; [PasswordUtil] is a
      parameter.
    - [console.error]/[console.log] output is not modelled. *)

From Stdlib Require Import String Ascii ZArith NArith List Bool Lia.
From Stdlib Require Import DecimalString.
Import ListNotations.
Local Open Scope string_scope.
Local Open Scope Z_scope.

(* ===================================================================== *)
(** ** Entities ([entities/User.ts]) *)
(* ===================================================================== *)

Inductive UserRole : Type :=
| ADMIN       (* "admin" *)
| USER        (* "user" *)
| MODERATOR.  (* "moderator" *)

Definition UserRole_eq_dec (a b : UserRole) : {a = b} + {a <> b}.
Proof. decide equality. Defined.

(** [IAuthPayload]: the claim set signed into both kinds of token. *)
Record IAuthPayload : Type := mkPayload {
  userId : string;
  email  : string;
  role   : UserRole
}.

Definition IAuthPayload_eq_dec (a b : IAuthPayload) : {a = b} + {a <> b}.
Proof. decide equality; auto using string_dec, UserRole_eq_dec. Defined.

(* ===================================================================== *)
(** ** The [jsonwebtoken] package, symbolically *)
(* ===================================================================== *)

(** [jsonwebtoken] is a dependency of the repository.  A compact HS256 token
    is the base64url text of a fixed header, of the claims (the payload
    together with [iat] and [exp]) and of an HMAC of both under the secret.
    That text is a deterministic, injective function of the claims and the
    secret, and it carries no nonce: [jwt.sign] adds only [iat] (the
    current second) and [exp].  A well-formed token string is therefore
    represented by the data that determines it, and any other string is
    kept as it is. *)
Record Jwt : Type := mkJwt {
  jwt_key    : string;         (* the secret the signature was made with *)
  jwt_claims : IAuthPayload;
  jwt_iat    : Z;
  jwt_exp    : option Z        (* the exp claim, absent when none was set *)
}.

Inductive Token : Type :=
| Opaque (s : string)          (* a string that is not a well-formed JWT *)
| Signed (j : Jwt).

Definition option_Z_eq_dec (a b : option Z) : {a = b} + {a <> b}.
Proof. decide equality; apply Z.eq_dec. Defined.

Definition Jwt_eq_dec (a b : Jwt) : {a = b} + {a <> b}.
Proof.
  decide equality;
    auto using string_dec, Z.eq_dec, option_Z_eq_dec, IAuthPayload_eq_dec.
Defined.

Definition Token_eq_dec (a b : Token) : {a = b} + {a <> b}.
Proof. decide equality; auto using string_dec, Jwt_eq_dec. Defined.

Definition Token_eqb (a b : Token) : bool :=
  if Token_eq_dec a b then true else false.

(** JavaScript truthiness of a string: only the empty string is falsy. *)
Definition truthy (s : string) : bool :=
  match s with EmptyString => false | String _ _ => true end.

Definition truthy_token (t : Token) : bool :=
  match t with Opaque s => truthy s | Signed _ => true end.

(** The [ms] package on the timespans [<digits><unit>]: the value in
    milliseconds, [None] where [ms] returns [undefined]. *)
Definition digit_of (c : ascii) : option Z :=
  let n := Z.of_nat (nat_of_ascii c) in
  if (48 <=? n) && (n <=? 57) then Some (n - 48) else None.

Fixpoint read_digits (acc : Z) (s : string) : Z * string :=
  match s with
  | String c rest =>
      match digit_of c with
      | Some d => read_digits (10 * acc + d) rest
      | None => (acc, s)
      end
  | EmptyString => (acc, s)
  end.

Definition ms (s : string) : option Z :=
  match s with
  | EmptyString => None
  | String c _ =>
      match digit_of c with
      | None => None
      | Some _ =>
          let (n, suffix) := read_digits 0 s in
          if      String.eqb suffix ""   then Some n
          else if String.eqb suffix "ms" then Some n
          else if String.eqb suffix "s"  then Some (n * 1000)
          else if String.eqb suffix "m"  then Some (n * 60000)
          else if String.eqb suffix "h"  then Some (n * 3600000)
          else if String.eqb suffix "d"  then Some (n * 86400000)
          else if String.eqb suffix "w"  then Some (n * 604800000)
          else if String.eqb suffix "y"  then Some (n * 31557600000)
          else None
      end
  end.

(** Outcome of a call that may throw: a value, or the [message] of the
    [Error] thrown. *)
Inductive Res (A : Type) : Type :=
| Ok (a : A)
| Throw (message : string).
Arguments Ok {A} a.
Arguments Throw {A} message.

(** [jwt.sign(payload, secret, { expiresIn })] at second [now].  [secret]
    is [process.env.X as string]: [None] when the variable is not set. *)
Definition jwt_sign (payload : IAuthPayload) (secret : option string)
    (expiresIn : string) (now : Z) : Res Token :=
  match secret with
  | None => Throw "secretOrPrivateKey must have a value"
  | Some key =>
      if negb (truthy key) then Throw "secretOrPrivateKey must have a value"
      else
        match ms expiresIn with
        | None =>
            Throw
              "'expiresIn' should be a number of seconds or a timespan string"
        | Some span =>
            Ok (Signed (mkJwt key payload now (Some (now + span / 1000))))
        end
  end.

(** [jwt.verify(token, secret, {})] at second [now]: the claims when the
    signature was made with [secret] and the token has not expired;
    [None] stands for every error [jwt.verify] throws. *)
Definition jwt_verify (token : Token) (secret : option string) (now : Z)
    : option IAuthPayload :=
  match token, secret with
  | Signed j, Some key =>
      if truthy key && String.eqb (jwt_key j) key then
        match jwt_exp j with
        | Some exp => if exp <=? now then None else Some (jwt_claims j)
        | None => Some (jwt_claims j)
        end
      else None
  | _, _ => None
  end.

(** [jwt.decode(token)]: the claims without any check, [null] for a string
    that is not a token. *)
Definition jwt_decode (token : Token) : option Jwt :=
  match token with
  | Signed j => Some j
  | Opaque _ => None
  end.

(* ===================================================================== *)
(** ** Process environment, stores and the world *)
(* ===================================================================== *)

(** [process.env]: the variables the sources read. *)
Record Env : Type := mkEnv {
  JWT_SECRET         : option string;
  JWT_EXPIRE         : option string;
  JWT_REFRESH_SECRET : option string;
  JWT_REFRESH_EXPIRE : option string;
  NODE_ENV           : option string
}.

(** [(process.env.X as string) || fallback] *)
Definition env_or (v : option string) (fallback : string) : string :=
  match v with
  | Some s => if truthy s then s else fallback
  | None => fallback
  end.

(** [IUser]; [_id], [createdAt] and [updatedAt] are optional. *)
Record IUser : Type := mkUser {
  _id           : option string;
  user_email    : string;
  user_password : string;
  user_name     : string;
  user_role     : UserRole;
  isActive      : bool;
  refreshTokens : list Token;
  createdAt     : option Z;
  updatedAt     : option Z
}.

(** A document of the [User] collection ([UserModel]): every field is
    present once the document is saved. *)
Record UserDoc : Type := mkDoc {
  doc_id            : string;
  doc_email         : string;
  doc_password      : string;
  doc_name          : string;
  doc_role          : UserRole;
  doc_isActive      : bool;
  doc_refreshTokens : list Token;
  doc_createdAt     : Z;
  doc_updatedAt     : Z
}.

(** Redis keys: the code only uses [`blacklist:${token}`]. *)
Inductive RedisKey : Type :=
| blacklist (token : Token).

Definition RedisKey_eqb (a b : RedisKey) : bool :=
  match a, b with blacklist x, blacklist y => Token_eqb x y end.

(** A Redis string entry with the second at which it expires. *)
Record RedisEntry : Type := mkEntry {
  entry_key     : RedisKey;
  entry_value   : string;
  entry_expires : Z
}.

Record World : Type := mkWorld {
  env      : Env;
  clock    : N;                 (* Math.floor(Date.now() / 1000) *)
  mongo    : list UserDoc;      (* the User collection *)
  next_oid : N;                 (* the ObjectId the next saved document gets *)
  mongo_up : bool;              (* MongoDB reachable *)
  redis    : list RedisEntry;
  redis_up : bool               (* Redis reachable *)
}.

Definition now (w : World) : Z := Z.of_N (clock w).

Definition set_mongo (w : World) (docs : list UserDoc) : World :=
  mkWorld (env w) (clock w) docs (next_oid w) (mongo_up w) (redis w)
          (redis_up w).

Definition set_redis (w : World) (entries : list RedisEntry) : World :=
  mkWorld (env w) (clock w) (mongo w) (next_oid w) (mongo_up w) entries
          (redis_up w).

(** *** The monad of asynchronous code

    A computation reads and updates the world and returns or throws.
    What was written before a throw stays written. *)
Definition M (A : Type) : Type := World -> Res A * World.

Definition ret {A} (a : A) : M A := fun w => (Ok a, w).

Definition throw {A} (message : string) : M A := fun w => (Throw message, w).

Definition bind {A B} (c : M A) (k : A -> M B) : M B := fun w =>
  match c w with
  | (Ok a, w') => k a w'
  | (Throw e, w') => (Throw e, w')
  end.

(** [try { c } catch (err) { h err }] *)
Definition try_catch {A} (c : M A) (h : string -> M A) : M A := fun w =>
  match c w with
  | (Ok a, w') => (Ok a, w')
  | (Throw e, w') => h e w'
  end.

Definition get_world : M World := fun w => (Ok w, w).

Declare Scope async_scope.
Delimit Scope async_scope with async.
Notation "x <- c ;; k" := (bind c (fun x => k))
  (at level 61, c at next level, right associativity) : async_scope.
Notation "c ;; k" := (bind c (fun _ => k))
  (at level 61, right associativity) : async_scope.
Local Open Scope async_scope.

(* ===================================================================== *)
(** ** [config/redis.ts]: the client *)
(* ===================================================================== *)

Definition live (at_ : Z) (e : RedisEntry) : bool := at_ <? entry_expires e.

Fixpoint redis_find (key : RedisKey) (at_ : Z) (entries : list RedisEntry)
    : option string :=
  match entries with
  | [] => None
  | e :: rest =>
      if RedisKey_eqb (entry_key e) key && live at_ e
      then Some (entry_value e)
      else redis_find key at_ rest
  end.

Definition redis_remove (key : RedisKey) (entries : list RedisEntry)
    : list RedisEntry :=
  filter (fun e => negb (RedisKey_eqb (entry_key e) key)) entries.

(** [redisClient.get(key)] *)
Definition redisClient_get (key : RedisKey) : M (option string) := fun w =>
  if redis_up w
  then (Ok (redis_find key (now w) (redis w)), w)
  else (Throw "The client is closed", w).

(** [redisClient.set(key, value, { EX: ttl })]: the entry replaces any
    earlier one under the key and expires [ttl] seconds from now. *)
Definition redisClient_set (key : RedisKey) (value : string) (EX : Z)
    : M unit := fun w =>
  if redis_up w
  then (Ok tt,
        set_redis w (mkEntry key value (now w + EX)
                       :: redis_remove key (redis w)))
  else (Throw "The client is closed", w).

(* ===================================================================== *)
(** ** [utils/TokenBlacklist.ts] *)
(* ===================================================================== *)

Module TokenBlacklist.

(** [decoded?.exp] followed by the test [!exp]: [undefined] and [0] are
    both falsy. *)
Definition exp_of (decoded : option Jwt) : option Z :=
  match decoded with
  | Some j =>
      match jwt_exp j with
      | Some exp => if exp =? 0 then None else Some exp
      | None => None
      end
  | None => None
  end.

Definition add (token : Token) : M unit :=
  if negb (truthy_token token) then ret tt
  else
    try_catch
      (match exp_of (jwt_decode token) with
       | None => ret tt
       | Some exp =>
           w <- get_world ;;
           let ttl := exp - now w in
           if ttl <=? 0 then ret tt
           else redisClient_set (blacklist token) "1" ttl
       end)
      (fun _ => ret tt).

Definition isBlacklisted (token : Token) : M bool :=
  if negb (truthy_token token) then ret false
  else
    try_catch
      (v <- redisClient_get (blacklist token) ;;
       ret (match v with Some s => truthy s | None => false end))
      (fun _ => ret false).

End TokenBlacklist.

(* ===================================================================== *)
(** ** [utils/JwtUtil.ts] *)
(* ===================================================================== *)

Module JwtUtil.

Definition generateAccessToken (payload : IAuthPayload) : M Token := fun w =>
  let expiresIn := env_or (JWT_EXPIRE (env w)) "7d" in
  (jwt_sign payload (JWT_SECRET (env w)) expiresIn (now w), w).

Definition generateRefreshToken (payload : IAuthPayload) : M Token := fun w =>
  let expiresIn := env_or (JWT_REFRESH_EXPIRE (env w)) "30d" in
  (jwt_sign payload (JWT_REFRESH_SECRET (env w)) expiresIn (now w), w).

(** The [catch] turns every error of [jwt.verify] into [null]. *)
Definition verifyAccessToken (token : Token) : M (option IAuthPayload) :=
  fun w => (Ok (jwt_verify token (JWT_SECRET (env w)) (now w)), w).

Definition verifyRefreshToken (token : Token) : M (option IAuthPayload) :=
  fun w => (Ok (jwt_verify token (JWT_REFRESH_SECRET (env w)) (now w)), w).

End JwtUtil.

(* ===================================================================== *)
(** ** [repositories/implementations/MongoUserRepository.ts] *)
(* ===================================================================== *)

(** [String.prototype.toLowerCase] and [trim] on ASCII text. *)
Definition lower_ascii (c : ascii) : ascii :=
  let n := nat_of_ascii c in
  if (Nat.leb 65 n && Nat.leb n 90)%bool then ascii_of_nat (n + 32) else c.

Fixpoint toLowerCase (s : string) : string :=
  match s with
  | EmptyString => EmptyString
  | String c rest => String (lower_ascii c) (toLowerCase rest)
  end.

Definition is_space (c : ascii) : bool :=
  let n := nat_of_ascii c in
  (Nat.eqb n 32 || (Nat.leb 9 n && Nat.leb n 13))%bool.

Fixpoint trim_start (s : string) : string :=
  match s with
  | String c rest => if is_space c then trim_start rest else s
  | EmptyString => EmptyString
  end.

Fixpoint trim_end (s : string) : string :=
  match s with
  | String c rest =>
      match trim_end rest with
      | EmptyString => if is_space c then EmptyString else String c EmptyString
      | r => String c r
      end
  | EmptyString => EmptyString
  end.

Definition trim (s : string) : string := trim_end (trim_start s).

(** The setters of the [email] path of [userSchema]
    ([lowercase: true, trim: true]). *)
Definition schema_email (s : string) : string := trim (toLowerCase s).

(** [_id.toString()] of the document numbered [n]. *)
Definition ObjectId (n : N) : string :=
  NilEmpty.string_of_uint (N.to_uint n).

Fixpoint find_doc (p : UserDoc -> bool) (docs : list UserDoc)
    : option UserDoc :=
  match docs with
  | [] => None
  | d :: rest => if p d then Some d else find_doc p rest
  end.

(** [updateOne(filter, update)]: the first document that matches is
    updated; with [timestamps: true] Mongoose also sets [updatedAt]. *)
Fixpoint update_first (p : UserDoc -> bool) (f : UserDoc -> UserDoc)
    (docs : list UserDoc) : list UserDoc :=
  match docs with
  | [] => []
  | d :: rest => if p d then f d :: rest else d :: update_first p f rest
  end.

Definition with_tokens (at_ : Z) (f : list Token -> list Token) (d : UserDoc)
    : UserDoc :=
  mkDoc (doc_id d) (doc_email d) (doc_password d) (doc_name d) (doc_role d)
        (doc_isActive d) (f (doc_refreshTokens d)) (doc_createdAt d) at_.

(** [$pull]: every occurrence of the value leaves the array. *)
Definition pull (token : Token) (tokens : list Token) : list Token :=
  filter (fun t => negb (Token_eqb t token)) tokens.

(** [$push]: the value is appended. *)
Definition push (token : Token) (tokens : list Token) : list Token :=
  tokens ++ [token].

(** [Array.prototype.includes] on token strings. *)
Definition includes (tokens : list Token) (token : Token) : bool :=
  existsb (fun t => Token_eqb t token) tokens.

Definition has_id (id : string) (d : UserDoc) : bool :=
  String.eqb (doc_id d) id.

(** The message of a call that is rejected because MongoDB is
    unreachable. *)
Definition mongo_unreachable : string :=
  "MongoNetworkError: failed to connect to server".

(** A call on the model: rejects while MongoDB is unreachable. *)
Definition mongo_call {A} (f : World -> Res A * World) : M A := fun w =>
  if mongo_up w then f w else (Throw mongo_unreachable, w).

(** [user._id!] and the like: the value when present.  [undefined] is
    rendered as the empty string; every user that [toDomain] builds has
    its [_id]. *)
Definition bang (o : option string) : string :=
  match o with Some s => s | None => "" end.

Module MongoUserRepository.

Definition toDomain (user : UserDoc) : IUser :=
  mkUser (Some (doc_id user)) (doc_email user) (doc_password user)
         (doc_name user) (doc_role user) (doc_isActive user)
         (doc_refreshTokens user) (Some (doc_createdAt user))
         (Some (doc_updatedAt user)).

Definition findByEmail (email : string) : M (option IUser) :=
  mongo_call (fun w =>
    let q := schema_email (toLowerCase email) in
    match find_doc (fun d => String.eqb (doc_email d) q) (mongo w) with
    | None => (Ok None, w)
    | Some user => (Ok (Some (toDomain user)), w)
    end).

Definition findById (id : string) : M (option IUser) :=
  mongo_call (fun w =>
    match find_doc (has_id id) (mongo w) with
    | None => (Ok None, w)
    | Some user => (Ok (Some (toDomain user)), w)
    end).

(** [new UserModel({...}).save()]: [refreshTokens] is not passed and takes
    the schema default [[]]; the [required] validators reject empty
    strings and the unique index on [email] rejects a duplicate. *)
Definition create (user : IUser) : M IUser :=
  mongo_call (fun w =>
    let newUser :=
      mkDoc (ObjectId (next_oid w))
            (schema_email (toLowerCase (user_email user)))
            (user_password user)
            (user_name user)
            (user_role user)          (* user.role || UserRole.USER *)
            (isActive user)           (* user.isActive !== false *)
            []
            (now w) (now w) in
    if negb (truthy (doc_email newUser) && truthy (doc_password newUser)
             && truthy (doc_name newUser))
    then (Throw "User validation failed", w)
    else
      match find_doc (fun d => String.eqb (doc_email d) (doc_email newUser))
                     (mongo w) with
      | Some _ => (Throw "E11000 duplicate key error", w)
      | None =>
          (Ok (toDomain newUser),
           mkWorld (env w) (clock w) (mongo w ++ [newUser])
                   (N.succ (next_oid w)) (mongo_up w) (redis w) (redis_up w))
      end).

Definition addRefreshToken (userId : string) (token : Token) : M unit :=
  mongo_call (fun w =>
    (Ok tt,
     set_mongo w (update_first (has_id userId)
                               (with_tokens (now w) (push token)) (mongo w)))).

Definition removeRefreshToken (userId : string) (token : Token) : M unit :=
  mongo_call (fun w =>
    (Ok tt,
     set_mongo w (update_first (has_id userId)
                               (with_tokens (now w) (pull token)) (mongo w)))).

Definition getRefreshTokens (userId : string) : M (list Token) :=
  mongo_call (fun w =>
    match find_doc (has_id userId) (mongo w) with
    | None => (Ok [], w)                   (* user?.refreshTokens || [] *)
    | Some user => (Ok (doc_refreshTokens user), w)
    end).

Definition findAll : M (list IUser) :=
  mongo_call (fun w => (Ok (map toDomain (mongo w)), w)).

End MongoUserRepository.

(* ===================================================================== *)
(** ** Use cases *)
(* ===================================================================== *)

(** The [user] member of [IAuthResponse]. *)
Record UserSummary : Type := mkSummary {
  summary_id    : string;
  summary_email : string;
  summary_name  : string;
  summary_role  : UserRole
}.

Record IAuthResponse : Type := mkAuthResponse {
  accessToken  : Token;
  refreshToken : Token;
  user         : UserSummary
}.

Definition payload_of (user : IUser) : IAuthPayload :=
  mkPayload (bang (_id user)) (user_email user) (user_role user).

Definition summary_of (user : IUser) : UserSummary :=
  mkSummary (bang (_id user)) (user_email user) (user_name user)
            (user_role user).

Module RefreshTokenUseCase.

Definition execute (refreshToken : Token) : M IAuthResponse :=
  (* Check if the refresh token was blacklisted (logged out) *)
  isBlacklisted <- TokenBlacklist.isBlacklisted refreshToken ;;
  if isBlacklisted : bool then throw "Refresh token is revoked" else
  (* Verify refresh token *)
  payload <- JwtUtil.verifyRefreshToken refreshToken ;;
  match payload with
  | None => throw "Invalid refresh token"
  | Some payload =>
      (* Get user *)
      user <- MongoUserRepository.findById (userId payload) ;;
      match user with
      | None => throw "User not found"
      | Some user =>
          (* Check if refresh token exists in user's tokens *)
          tokens <- MongoUserRepository.getRefreshTokens (bang (_id user)) ;;
          if negb (includes tokens refreshToken)
          then throw "Refresh token not found or expired"
          else
            (* Generate new tokens *)
            let newPayload := payload_of user in
            accessToken <- JwtUtil.generateAccessToken newPayload ;;
            newRefreshToken <- JwtUtil.generateRefreshToken newPayload ;;
            (* Update refresh token in database *)
            MongoUserRepository.removeRefreshToken (bang (_id user))
                                                   refreshToken ;;
            MongoUserRepository.addRefreshToken (bang (_id user))
                                                newRefreshToken ;;
            ret (mkAuthResponse accessToken newRefreshToken (summary_of user))
      end
  end.

End RefreshTokenUseCase.

Module LogoutUseCase.

Definition execute (userId : string) (refreshToken : Token) : M unit :=
  (* remove refresh token from persistent store *)
  MongoUserRepository.removeRefreshToken userId refreshToken ;;
  (* add refresh token to Redis blacklist for immediate invalidation *)
  TokenBlacklist.add refreshToken.

End LogoutUseCase.

(** What is left of an [IUser] once [password] and [refreshTokens] are
    taken out by the destructuring in [GetUserUseCase]. *)
Record UserWithoutSensitiveData : Type := mkPublic {
  public_id        : option string;
  public_email     : string;
  public_name      : string;
  public_role      : UserRole;
  public_isActive  : bool;
  public_createdAt : option Z;
  public_updatedAt : option Z
}.

Module GetUserUseCase.

Definition execute (userId : string) : M UserWithoutSensitiveData :=
  user <- MongoUserRepository.findById userId ;;
  match user with
  | None => throw "User not found"
  | Some user =>
      (* Return user without password:
         const { password, refreshTokens, ...userWithoutSensitiveData } *)
      ret (mkPublic (_id user) (user_email user) (user_name user)
                    (user_role user) (isActive user) (createdAt user)
                    (updatedAt user))
  end.

End GetUserUseCase.

(** [utils/PasswordUtil.ts] is outside the sources at hand: the use cases
    that hash or compare a password take the two functions as they are. *)
Section WithPasswordUtil.

Variable hashPassword : string -> string.
Variable comparePasswords : string -> string -> bool.

Definition RegisterUseCase_execute (email password name : string)
    : M IUser :=
  (* Check if user already exists *)
  existingUser <- MongoUserRepository.findByEmail email ;;
  match existingUser with
  | Some _ => throw "User already exists with this email"
  | None =>
      (* Hash password *)
      let hashedPassword := hashPassword password in
      (* Create new user *)
      let newUser :=
        mkUser None email hashedPassword name USER true [] None None in
      MongoUserRepository.create newUser
  end.

Definition LoginUseCase_execute (email password : string)
    : M IAuthResponse :=
  (* Find user by email *)
  user <- MongoUserRepository.findByEmail email ;;
  match user with
  | None => throw "Invalid email or password"
  | Some user =>
      (* Check if user is active *)
      if negb (isActive user) then throw "User account is not active" else
      (* Compare passwords *)
      if negb (comparePasswords password (user_password user))
      then throw "Invalid email or password"
      else
        (* Generate tokens *)
        let payload := payload_of user in
        accessToken <- JwtUtil.generateAccessToken payload ;;
        refreshToken <- JwtUtil.generateRefreshToken payload ;;
        (* Save refresh token to database *)
        MongoUserRepository.addRefreshToken (bang (_id user)) refreshToken ;;
        ret (mkAuthResponse accessToken refreshToken (summary_of user))
  end.

End WithPasswordUtil.


(* ===================================================================== *)
(** ** The HTTP layer *)
(* ===================================================================== *)

(** The [Authorization] header: ["Bearer " ++ token], or a string that does
    not start with ["Bearer "]. *)
Inductive AuthorizationHeader : Type :=
| Bearer (token : Token)
| NotBearer (s : string).

Record Body : Type := mkBody {
  body_email        : option string;
  body_password     : option string;
  body_name         : option string;
  body_refreshToken : option Token
}.

Record Request : Type := mkRequest {
  authorization : option AuthorizationHeader;   (* req.headers.authorization *)
  body          : Body;                         (* req.body *)
  req_user      : option IAuthPayload           (* req.user *)
}.

(** The [data] member of a JSON answer. *)
Inductive Data : Type :=
| DataAuth (r : IAuthResponse)
| DataSummary (id : option string) (email name : string) (role : UserRole)
| DataUser (u : UserWithoutSensitiveData).

(** [res.status(status).json({ success, message, data })]; a member that
    the handler leaves out is [None]. *)
Record Response : Type := mkResponse {
  status  : Z;
  success : option bool;
  message : option string;
  data    : option Data
}.

(** [{ message }] *)
Definition plain (status : Z) (message : string) : Response :=
  mkResponse status None (Some message) None.

(** [{ success: false, message }] *)
Definition failure (status : Z) (message : string) : Response :=
  mkResponse status (Some false) (Some message) None.

(** A middleware either answers or calls [next()] with the request. *)
Inductive Handled : Type :=
| Respond (res : Response)
| Next (req : Request).

Definition truthy_opt (o : option string) : bool :=
  match o with Some s => truthy s | None => false end.

Module AuthMiddleware.

Definition authenticate (req : Request) : M Handled :=
  try_catch
    (match authorization req with
     | Some (Bearer token) =>
         (* Check if token is blacklisted (user logged out) *)
         isBlacklisted <- TokenBlacklist.isBlacklisted token ;;
         if isBlacklisted : bool
         then ret (Respond (plain 401 "Token has been revoked"))
         else
           payload <- JwtUtil.verifyAccessToken token ;;
           match payload with
           | None => ret (Respond (plain 401 "Invalid or expired token"))
           | Some payload =>
               ret (Next (mkRequest (authorization req) (body req)
                                    (Some payload)))
           end
     | _ => ret (Respond (plain 401 "Missing or invalid authorization header"))
     end)
    (fun _ => ret (Respond (plain 401 "Authentication failed"))).

Definition authorize (allowedRoles : list UserRole) (req : Request)
    : Handled :=
  match req_user req with
  | None => Respond (plain 401 "Unauthorized")
  | Some u =>
      if negb (existsb (fun r => if UserRole_eq_dec r (role u)
                                 then true else false) allowedRoles)
      then Respond (plain 403 "Forbidden: Insufficient permissions")
      else Next req
  end.

End AuthMiddleware.

Module AuthController.

Definition refreshToken (req : Request) : M Response :=
  try_catch
    (match body_refreshToken (body req) with
     | Some refreshToken =>
         if negb (truthy_token refreshToken)
         then ret (plain 400 "Missing refresh token")
         else
           result <- RefreshTokenUseCase.execute refreshToken ;;
           ret (mkResponse 200 (Some true)
                           (Some "Token refreshed successfully")
                           (Some (DataAuth result)))
     | None => ret (plain 400 "Missing refresh token")
     end)
    (fun error_message => ret (failure 401 error_message)).

Definition logout (req : Request) : M Response :=
  try_catch
    (match req_user req, body_refreshToken (body req) with
     | Some user, Some refreshToken =>
         if negb (truthy_token refreshToken)
         then ret (plain 400 "Missing user or refresh token")
         else
           (* If an access token was provided in the Authorization header,
              blacklist it immediately *)
           match authorization req with
           | Some (Bearer accessToken) => TokenBlacklist.add accessToken
           | _ => ret tt
           end ;;
           LogoutUseCase.execute (userId user) refreshToken ;;
           ret (mkResponse 200 (Some true) (Some "Logout successful") None)
     | _, _ => ret (plain 400 "Missing user or refresh token")
     end)
    (fun error_message => ret (failure 400 error_message)).

Definition getUser (req : Request) : M Response :=
  try_catch
    (match req_user req with
     | None => ret (plain 401 "Unauthorized")
     | Some u =>
         user <- GetUserUseCase.execute (userId u) ;;
         ret (mkResponse 200 (Some true) None (Some (DataUser user)))
     end)
    (fun error_message => ret (failure 400 error_message)).

End AuthController.

(** [middleware/ErrorMiddleware.ts]: the answer to an error that reaches
    Express through [next(err)].  The handlers above catch what they await
    and [TokenBlacklist] catches the errors of Redis, so no route of
    [createAuthRoutes] hands an error of a store to it. *)
Record ErrorAnswer : Type := mkErrorAnswer {
  error_status  : Z;
  error_success : bool;
  error_message : string;
  error_detail  : option string    (* the error itself, in development *)
}.

Definition ErrorMiddleware_handle (statusCode : option Z) (message : string)
    (w : World) : ErrorAnswer :=
  let status :=
    match statusCode with
    | Some c => if c =? 0 then 500 else c       (* err.statusCode || 500 *)
    | None => 500
    end in
  let message' := if truthy message then message else "Internal Server Error" in
  mkErrorAnswer status false message'
    (match NODE_ENV (env w) with
     | Some mode => if String.eqb mode "development" then Some message else None
     | None => None
     end).

(** [routes/authRoutes.ts]: a protected route runs the handler only when
    [AuthMiddleware.authenticate] calls [next()]. *)
Definition protected (handler : Request -> M Response) (req : Request)
    : M Response :=
  h <- AuthMiddleware.authenticate req ;;
  match h with
  | Respond res => ret res
  | Next req' => handler req'
  end.

Definition POST_refresh : Request -> M Response := AuthController.refreshToken.
Definition POST_logout : Request -> M Response :=
  protected AuthController.logout.
Definition GET_me : Request -> M Response := protected AuthController.getUser.

(** [GET /admin/users], the admin only route example: [authenticate], then
    [authorize(UserRole.ADMIN)], then the handler, which answers with the
    default status. *)
Definition admin_only_message : string :=
  "Admin only endpoint - requires ADMIN role".

Definition GET_admin_users (req : Request) : M Response :=
  h <- AuthMiddleware.authenticate req ;;
  match h with
  | Respond res => ret res
  | Next req' =>
      match AuthMiddleware.authorize [ADMIN] req' with
      | Respond res => ret res
      | Next _ => ret (mkResponse 200 (Some true) (Some admin_only_message)
                                  None)
      end
  end.

(* ===================================================================== *)
(** ** Around the requests *)
(* ===================================================================== *)

(** What happens around a request while it waits: the clock advances, a
    store goes away or comes back. *)
Inductive EnvAction : Type :=
| Tick (seconds : N)
| MongoReachable (up : bool)
| RedisReachable (up : bool).

Definition env_step (a : EnvAction) (w : World) : World :=
  match a with
  | Tick s =>
      mkWorld (env w) (clock w + s)%N (mongo w) (next_oid w) (mongo_up w)
              (redis w) (redis_up w)
  | MongoReachable up =>
      mkWorld (env w) (clock w) (mongo w) (next_oid w) up (redis w)
              (redis_up w)
  | RedisReachable up =>
      mkWorld (env w) (clock w) (mongo w) (next_oid w) (mongo_up w)
              (redis w) up
  end.

(* ===================================================================== *)
(** ** [index.ts]: start-up *)
(* ===================================================================== *)






(* ===================================================================== *)
(** ** The running server *)
(* ===================================================================== *)

(** [AuthController.register] and [AuthController.login], which need
    [PasswordUtil], and the requests a running server takes. *)
Section Server.

Variable hashPassword : string -> string.
Variable comparePasswords : string -> string -> bool.

Definition AuthController_register (req : Request) : M Response :=
  try_catch
    (match body_email (body req), body_password (body req),
           body_name (body req) with
     | Some email, Some password, Some name =>
         if negb (truthy email && truthy password && truthy name)
         then ret (plain 400 "Missing required fields")
         else
           user <- RegisterUseCase_execute hashPassword email password name ;;
           ret (mkResponse 201 (Some true)
                           (Some "User registered successfully")
                           (Some (DataSummary (_id user) (user_email user)
                                              (user_name user)
                                              (user_role user))))
     | _, _, _ => ret (plain 400 "Missing required fields")
     end)
    (fun error_message => ret (failure 400 error_message)).

Definition AuthController_login (req : Request) : M Response :=
  try_catch
    (match body_email (body req), body_password (body req) with
     | Some email, Some password =>
         if negb (truthy email && truthy password)
         then ret (plain 400 "Missing email or password")
         else
           result <- LoginUseCase_execute comparePasswords email password ;;
           ret (mkResponse 200 (Some true) (Some "Login successful")
                           (Some (DataAuth result)))
     | _, _ => ret (plain 400 "Missing email or password")
     end)
    (fun error_message => ret (failure 401 error_message)).

(** What happens to a running server: a request on one of the routes of
    [createAuthRoutes], or an event around it. *)
Inductive Call : Type :=
| PostRegister (req : Request)
| PostLogin (req : Request)
| PostRefresh (req : Request)
| PostLogout (req : Request)
| GetMe (req : Request)
| Outside (a : EnvAction).

Definition serve (c : Call) (w : World) : World :=
  match c with
  | PostRegister req => snd (AuthController_register req w)
  | PostLogin req => snd (AuthController_login req w)
  | PostRefresh req => snd (POST_refresh req w)
  | PostLogout req => snd (POST_logout req w)
  | GetMe req => snd (GET_me req w)
  | Outside a => env_step a w
  end.

(** The world after the calls, one after the other. *)
Definition afterwards (calls : list Call) (w : World) : World :=
  fold_left (fun w c => serve c w) calls w.

End Server.

(* ===================================================================== *)
(** ** [RefreshTokenUseCase.execute], one [await] at a time *)
(* ===================================================================== *)

Module Rotation.

(** The points at which [execute] is suspended, with the local variables
    that are live there. *)
Inductive Pc : Type :=
| AwaitIsBlacklisted                                   (* line 11 *)
| AwaitFindById (payload : IAuthPayload)               (* line 23 *)
| AwaitGetRefreshTokens (user : IUser)                 (* line 29 *)
| AwaitRemoveRefreshToken (user : IUser) (accessToken newRefreshToken : Token)
                                                       (* line 45 *)
| AwaitAddRefreshToken (user : IUser) (accessToken newRefreshToken : Token)
                                                       (* line 46 *)
| Settled (outcome : Res IAuthResponse).

(** The awaited call against the current world, then the synchronous code
    up to the next [await]. *)
Definition resume (refreshToken : Token) (pc : Pc) : M Pc :=
  match pc with
  | AwaitIsBlacklisted =>
      isBlacklisted <- TokenBlacklist.isBlacklisted refreshToken ;;
      if isBlacklisted : bool then throw "Refresh token is revoked" else
      payload <- JwtUtil.verifyRefreshToken refreshToken ;;
      match payload with
      | None => throw "Invalid refresh token"
      | Some payload => ret (AwaitFindById payload)
      end
  | AwaitFindById payload =>
      user <- MongoUserRepository.findById (userId payload) ;;
      match user with
      | None => throw "User not found"
      | Some user => ret (AwaitGetRefreshTokens user)
      end
  | AwaitGetRefreshTokens user =>
      tokens <- MongoUserRepository.getRefreshTokens (bang (_id user)) ;;
      if negb (includes tokens refreshToken)
      then throw "Refresh token not found or expired"
      else
        let newPayload := payload_of user in
        accessToken <- JwtUtil.generateAccessToken newPayload ;;
        newRefreshToken <- JwtUtil.generateRefreshToken newPayload ;;
        ret (AwaitRemoveRefreshToken user accessToken newRefreshToken)
  | AwaitRemoveRefreshToken user accessToken newRefreshToken =>
      MongoUserRepository.removeRefreshToken (bang (_id user)) refreshToken ;;
      ret (AwaitAddRefreshToken user accessToken newRefreshToken)
  | AwaitAddRefreshToken user accessToken newRefreshToken =>
      MongoUserRepository.addRefreshToken (bang (_id user)) newRefreshToken ;;
      ret (Settled (Ok (mkAuthResponse accessToken newRefreshToken
                                       (summary_of user))))
  | Settled outcome => ret (Settled outcome)
  end.

(** A rejected promise settles the call with the error. *)
Definition step (refreshToken : Token) (pc : Pc) (w : World) : Pc * World :=
  match resume refreshToken pc w with
  | (Ok pc', w') => (pc', w')
  | (Throw e, w') => (Settled (Throw e), w')
  end.

(** One attempt on its own: [None] resumes it, [Some a] is something that
    happens around it. *)
Fixpoint run (refreshToken : Token) (trace : list (option EnvAction))
    (pc : Pc) (w : World) : Pc * World :=
  match trace with
  | [] => (pc, w)
  | None :: rest =>
      let (pc', w') := step refreshToken pc w in run refreshToken rest pc' w'
  | Some a :: rest => run refreshToken rest pc (env_step a w)
  end.

Definition succeeded (pc : Pc) : bool :=
  match pc with Settled (Ok _) => true | _ => false end.

Definition failed_with (message : string) (pc : Pc) : bool :=
  match pc with Settled (Throw e) => String.eqb e message | _ => false end.

End Rotation.

(** Two attempts on one server. *)
Module Race.

Inductive Who : Type := First | Second.

Inductive Action : Type :=
| Resume (who : Who)
| Around (a : EnvAction).

Record State : Type := mkState {
  world  : World;
  first  : Rotation.Pc;
  second : Rotation.Pc
}.

Definition act (tokenA tokenB : Token) (a : Action) (s : State) : State :=
  match a with
  | Resume First =>
      let (pc, w) := Rotation.step tokenA (first s) (world s) in
      mkState w pc (second s)
  | Resume Second =>
      let (pc, w) := Rotation.step tokenB (second s) (world s) in
      mkState w (first s) pc
  | Around e => mkState (env_step e (world s)) (first s) (second s)
  end.

Definition run (tokenA tokenB : Token) (schedule : list Action) (s : State)
    : State :=
  fold_left (fun s a => act tokenA tokenB a s) schedule s.

(** Both requests have arrived and neither has run yet. *)
Definition start (w : World) : State :=
  mkState w Rotation.AwaitIsBlacklisted Rotation.AwaitIsBlacklisted.

End Race.


(* ===================================================================== *)
(** ** Vocabulary of the statements *)
(* ===================================================================== *)

(** The refresh tokens [getRefreshTokens] reads for [id]. *)
Definition tokens_of (w : World) (id : string) : list Token :=
  match find_doc (has_id id) (mongo w) with
  | Some d => doc_refreshTokens d
  | None => []
  end.

(** The world after a run of outside events. *)
Definition later (events : list EnvAction) (w : World) : World :=
  fold_left (fun w a => env_step a w) events w.

(** A token that is not a JWT, or a JWT with an [exp] claim. *)
Definition carries_expiry (t : Token) : bool :=
  match t with
  | Signed j => match jwt_exp j with Some _ => true | None => false end
  | Opaque _ => true
  end.

(** Two documents that agree on everything but the password hash and the
    refresh tokens. *)
Definition differ_only_in_secrets (d1 d2 : UserDoc) : Prop :=
  doc_id d1 = doc_id d2 /\ doc_email d1 = doc_email d2 /\
  doc_name d1 = doc_name d2 /\ doc_role d1 = doc_role d2 /\
  doc_isActive d1 = doc_isActive d2 /\
  doc_createdAt d1 = doc_createdAt d2 /\ doc_updatedAt d1 = doc_updatedAt d2.

(** *** Worlds used in the examples *)

Definition example_env : Env :=
  mkEnv (Some "access-secret") None (Some "refresh-secret") None None.

Definition alice_payload : IAuthPayload := mkPayload "1" "alice@x.com" USER.

(** The refresh token a login of Alice at second [iat] yields. *)
Definition alice_refresh (iat : Z) : Token :=
  Signed (mkJwt "refresh-secret" alice_payload iat (Some (iat + 2592000))).

Definition alice_access (iat : Z) : Token :=
  Signed (mkJwt "access-secret" alice_payload iat (Some (iat + 604800))).

(** A stand-in for [PasswordUtil]. *)
Definition example_hash (s : string) : string := "$2a$10$" ++ s.

Definition example_compare (password hash : string) : bool :=
  String.eqb (example_hash password) hash.

Definition alice_doc (hash : string) (tokens : list Token) : UserDoc :=
  mkDoc "1" "alice@x.com" hash "Alice" USER true tokens 1000 1000.

(** Alice is registered and holds [tokens]; both stores are reachable. *)
Definition alice_world (clock : N) (tokens : list Token) : World :=
  mkWorld example_env clock [alice_doc (example_hash "pw") tokens] 2 true []
          true.

Definition empty_world : World :=
  mkWorld example_env 1000 [] 1 true [] true.

(** Alice with another password hash and no refresh token. *)
Definition alice_world_rehashed (clock : N) : World :=
  mkWorld example_env clock [alice_doc (example_hash "other") []] 2 true []
          true.

(** A request that presents [token] in the [Authorization] header. *)
Definition bearer_request (token : Token) : Request :=
  mkRequest (Some (Bearer token)) (mkBody None None None None) None.

(** A request that presents [token] as [refreshToken] in the body. *)
Definition refresh_request (token : Token) : Request :=
  mkRequest None (mkBody None None None (Some token)) None.

(** Alice's world with the Redis entries [entries], Redis being
    reachable or not. *)
Definition alice_world_redis (clock : N) (tokens : list Token)
    (entries : list RedisEntry) (up : bool) : World :=
  mkWorld example_env clock [alice_doc (example_hash "pw") tokens] 2 true
          entries up.




(** Alice's access and refresh tokens of second 1500 are both on the
    blacklist, the refresh token is still registered, and Redis is
    reachable or not. *)
Definition revoked_world (up : bool) : World :=
  alice_world_redis 2000 [alice_refresh 1500]
    [mkEntry (blacklist (alice_access 1500)) "1" 606300;
     mkEntry (blacklist (alice_refresh 1500)) "1" 2593500]
    up.

(** A refresh token signed for an id that no document has. *)
Definition ghost_refresh : Token :=
  Signed (mkJwt "refresh-secret" (mkPayload "7" "ghost@x.com" USER) 1500
                (Some 2593500)).

(** The messages with which [AuthMiddleware.authenticate] answers. *)
Definition authenticate_messages : list string :=
  ["Missing or invalid authorization header"; "Token has been revoked";
   "Invalid or expired token"; "Authentication failed"].

(** What a reachable Redis answers about [t] at second [at_]. *)
Definition revoked_at (w : World) (t : Token) (at_ : Z) : bool :=
  match redis_find (blacklist t) at_ (redis w) with
  | Some s => truthy s
  | None => false
  end.

(** The request [POST /logout] hands to the controller once
    [authenticate] has put the identity [u] on it: access token [a] in the
    header, refresh token [r] in the body. *)
Definition logout_request (u : IAuthPayload) (r a : Token) : Request :=
  mkRequest (Some (Bearer a)) (mkBody None None None (Some r)) (Some u).

(** The user id a token was signed for. *)
Definition subject (t : Token) : string :=
  match t with
  | Signed j => userId (jwt_claims j)
  | Opaque _ => ""
  end.



(** Alice registered with the password ["pw"], nobody logged in. *)
Definition alice_registered (clock : N) : World := alice_world clock [].

(** The world after Alice logs in at second 1000. *)
Definition alice_logged_in : World :=
  snd (LoginUseCase_execute example_compare "alice@x.com" "pw"
                            (alice_registered 1000)).

(** The world after the rotation of [t] in [w]. *)
Definition rotated (t : Token) (w : World) : World :=
  snd (RefreshTokenUseCase.execute t w).

(** The new refresh token of a rotation that returned. *)
Definition reissued (outcome : Res IAuthResponse) : option Token :=
  match outcome with
  | Ok response => Some (refreshToken response)
  | Throw _ => None
  end.

(** The five [await]s of a rotation that nothing interrupts. *)
Definition uninterrupted : list (option EnvAction) :=
  [None; None; None; None; None].

(** Where the refresh tokens of the user of [t] stand when an attempt on
    [t] is at [pc]; [before] are the tokens when the attempt started and
    [current] the tokens now. *)
Definition registry_stage (t : Token) (before current : list Token)
    (pc : Rotation.Pc) : Prop :=
  match pc with
  | Rotation.AwaitAddRefreshToken _ _ _ => current = pull t before
  | Rotation.Settled (Ok response) =>
      current = push (refreshToken response) (pull t before)
  | Rotation.Settled (Throw _) => current = before \/ current = pull t before
  | _ => current = before
  end.

(** The user an attempt on [t] works on is the one [t] was signed for. *)
Definition works_on_subject (t : Token) (pc : Rotation.Pc) : Prop :=
  match pc with
  | Rotation.AwaitFindById p => userId p = subject t
  | Rotation.AwaitGetRefreshTokens u
  | Rotation.AwaitRemoveRefreshToken u _ _
  | Rotation.AwaitAddRefreshToken u _ _ => bang (_id u) = subject t
  | _ => True
  end.

(** The attempt holds a user it has read from the collection. *)
Definition holds_user (pc : Rotation.Pc) : bool :=
  match pc with
  | Rotation.AwaitGetRefreshTokens _
  | Rotation.AwaitRemoveRefreshToken _ _ _
  | Rotation.AwaitAddRefreshToken _ _ _ => true
  | _ => false
  end.

(** The attempt has not read the refresh tokens of the user yet. *)
Definition before_membership (pc : Rotation.Pc) : bool :=
  match pc with
  | Rotation.AwaitIsBlacklisted
  | Rotation.AwaitFindById _
  | Rotation.AwaitGetRefreshTokens _ => true
  | _ => false
  end.

(** The attempt has passed the membership check. *)
Definition past_membership (pc : Rotation.Pc) : bool :=
  match pc with
  | Rotation.AwaitRemoveRefreshToken _ _ _
  | Rotation.AwaitAddRefreshToken _ _ _
  | Rotation.Settled (Ok _) => true
  | _ => false
  end.

(** The attempt has removed [t], and the token it issued is another one. *)
Definition removed_for_another (t : Token) (pc : Rotation.Pc) : bool :=
  match pc with
  | Rotation.AwaitAddRefreshToken _ _ nt => negb (Token_eqb nt t)
  | Rotation.Settled (Ok response) =>
      negb (Token_eqb (refreshToken response) t)
  | _ => false
  end.

(** What holds of an attempt on [t] at [pc] in world [w] that started in
    world [w0]. *)
Definition attempt_inv (t : Token) (w0 w : World) (pc : Rotation.Pc) : Prop :=
  works_on_subject t pc /\
  (holds_user pc = true -> find_doc (has_id (subject t)) (mongo w) <> None) /\
  registry_stage t (tokens_of w0 (subject t)) (tokens_of w (subject t)) pc /\
  (forall id, id <> subject t -> tokens_of w id = tokens_of w0 id).

(** A rotation of Alice's token that loses MongoDB between the removal and
    the insertion. *)
Definition interrupted : list (option EnvAction) :=
  [None; None; None; None; Some (MongoReachable false); None].

(** The attempt has done its writing and has not put [t] back. *)
Definition done_for_another (t : Token) (pc : Rotation.Pc) : bool :=
  match pc with
  | Rotation.AwaitAddRefreshToken _ _ nt => negb (Token_eqb nt t)
  | Rotation.Settled _ => true
  | _ => false
  end.

(** What holds of two attempts on [t] however they are scheduled: while
    the second has not read the refresh tokens, a removal by the first
    shows in the collection. *)
Definition race_inv (t : Token) (s : Race.State) : Prop :=
  works_on_subject t (Race.first s) /\ works_on_subject t (Race.second s) /\
  (before_membership (Race.second s) = true ->
   match Race.first s with
   | Rotation.AwaitAddRefreshToken _ _ _ =>
       includes (tokens_of (Race.world s) (subject t)) t = false
   | Rotation.Settled (Ok response) =>
       refreshToken response <> t ->
       includes (tokens_of (Race.world s) (subject t)) t = false
   | _ => True
   end).

(** What holds from the removal by the first attempt on, when the second
    had not read the refresh tokens by then. *)
Definition refused_inv (t : Token) (s : Race.State) : Prop :=
  works_on_subject t (Race.first s) /\ works_on_subject t (Race.second s) /\
  includes (tokens_of (Race.world s) (subject t)) t = false /\
  done_for_another t (Race.first s) = true /\
  past_membership (Race.second s) = false.

(** The schedule of the race: both attempts pass the membership check
    before either removes the token. *)
Definition racing : list Race.Action :=
  [Race.Resume Race.First; Race.Resume Race.First; Race.Resume Race.First;
   Race.Around (Tick 1);
   Race.Resume Race.Second; Race.Resume Race.Second; Race.Resume Race.Second;
   Race.Resume Race.First; Race.Resume Race.First;
   Race.Resume Race.Second; Race.Resume Race.Second].

(** The first attempt runs up to its removal, ... *)
Definition first_removes : list Race.Action :=
  [Race.Resume Race.First; Race.Resume Race.Second; Race.Resume Race.First;
   Race.Resume Race.Second; Race.Resume Race.First; Race.Resume Race.First].

(** ... and then the second attempt goes on. *)
Definition second_goes_on : list Race.Action :=
  [Race.Resume Race.Second; Race.Resume Race.First; Race.Resume Race.Second].





(** ** Vocabulary of the further properties *)

(** What [TokenBlacklist.isBlacklisted] answers for [t] in [w]. *)
Definition blacklisted_in (w : World) (t : Token) : bool :=
  match fst (TokenBlacklist.isBlacklisted t w) with
  | Ok b => b
  | Throw _ => false
  end.

(** The identity a request carries in [w]: the claims of its bearer token
    when the token is not blacklisted and verifies as an access token. *)
Definition bearer_identity (req : Request) (w : World)
    : option IAuthPayload :=
  match authorization req with
  | Some (Bearer t) =>
      if blacklisted_in w t then None
      else jwt_verify t (JWT_SECRET (env w)) (now w)
  | _ => None
  end.

Definition admin_only_answer : Response :=
  mkResponse 200 (Some true) (Some admin_only_message) None.

(** The world [w] with another user collection. *)
Definition with_collection (w : World) (docs : list UserDoc) (oid : N)
    (up : bool) : World :=
  mkWorld (env w) (clock w) docs oid up (redis w) (redis_up w).

(** The claims and the summary [RefreshTokenUseCase] and [LoginUseCase]
    build from the stored user. *)
Definition payload_of_doc (d : UserDoc) : IAuthPayload :=
  payload_of (MongoUserRepository.toDomain d).

Definition summary_of_doc (d : UserDoc) : UserSummary :=
  summary_of (MongoUserRepository.toDomain d).

(** The collection with the [isActive] flags set by [active]. *)
Definition with_isActive (active : UserDoc -> bool) (d : UserDoc) : UserDoc :=
  mkDoc (doc_id d) (doc_email d) (doc_password d) (doc_name d) (doc_role d)
        (active d) (doc_refreshTokens d) (doc_createdAt d) (doc_updatedAt d).

(** The filter of [findByEmail]: the stored email is the queried one after
    [toLowerCase] and the setters of the schema. *)
Definition has_email (email : string) (d : UserDoc) : bool :=
  String.eqb (doc_email d) (schema_email (toLowerCase email)).

(** Both secrets are set and both lifetimes are timespans. *)
Definition issuance_configured (w : World) : bool :=
  truthy_opt (JWT_SECRET (env w)) && truthy_opt (JWT_REFRESH_SECRET (env w))
  && match ms (env_or (JWT_EXPIRE (env w)) "7d") with
     | Some _ => true | None => false end
  && match ms (env_or (JWT_REFRESH_EXPIRE (env w)) "30d") with
     | Some _ => true | None => false end.

(** Alice's account, deactivated. *)
Definition alice_world_inactive : World :=
  mkWorld example_env 1000
          [mkDoc "1" "alice@x.com" (example_hash "pw") "Alice" USER false []
                 1000 1000] 2 true [] true.

(** The document [MongoUserRepository.create] saves for a registration in
    [w]. *)
Definition registered_doc (hashPassword : string -> string)
    (email password name : string) (w : World) : UserDoc :=
  mkDoc (ObjectId (next_oid w)) (schema_email (toLowerCase email))
        (hashPassword password) name USER true [] (now w) (now w).

(** The world with one more document in the collection. *)
Definition with_new_doc (w : World) (d : UserDoc) : World :=
  mkWorld (env w) (clock w) (mongo w ++ [d]) (N.succ (next_oid w))
          (mongo_up w) (redis w) (redis_up w).


(** A request with the body [{ refreshToken }] and the access token [a] in
    the header, as the client sends it to [POST /logout]. *)
Definition client_logout_request (r a : Token) : Request :=
  mkRequest (Some (Bearer a)) (mkBody None None None (Some r)) None.

(** The record [GET /me] shows for a stored user. *)
Definition public_of (d : UserDoc) : UserWithoutSensitiveData :=
  mkPublic (Some (doc_id d)) (doc_email d) (doc_name d) (doc_role d)
           (doc_isActive d) (Some (doc_createdAt d)) (Some (doc_updatedAt d)).

(** [!refreshToken] on the member of the body. *)
Definition truthy_token_opt (o : option Token) : bool :=
  match o with Some t => truthy_token t | None => false end.

(** What a stored user is, apart from the refresh tokens and the time of
    the last update. *)
Definition Profile : Type :=
  (string * string * string * string * UserRole * bool * Z)%type.

Definition profile (d : UserDoc) : Profile :=
  (doc_id d, doc_email d, doc_password d, doc_name d, doc_role d,
   doc_isActive d, doc_createdAt d).

Definition plain_user (d : UserDoc) : Prop :=
  doc_role d = USER /\ doc_isActive d = true.

(** The collection of [w'] is the one of [w] with the same users in the
    same order, each as it was but for its tokens, followed by new users
    with the role user, and its emails are distinct when those of [w]
    are. *)
Definition extends (w w' : World) : Prop :=
  (exists added,
     map profile (mongo w')
     = (map profile (mongo w) ++ map profile added)%list /\
     Forall plain_user added) /\
  (NoDup (map doc_email (mongo w)) -> NoDup (map doc_email (mongo w'))).

Definition keeps_users {A : Type} (c : M A) : Prop :=
  forall w, extends w (snd (c w)).

(** Bob registers while Alice is logged in, Alice rotates her token and
    logs out. *)
Definition busy_with_registration : list Call :=
  [PostRegister (mkRequest None (mkBody (Some "bob@x.com") (Some "pw")
                                        (Some "Bob") None) None);
   PostRefresh (refresh_request (alice_refresh 1000));
   Outside (Tick 5);
   PostLogout (client_logout_request (alice_refresh 2000)
                                     (alice_access 2000))].

(** Alice with one refresh token registered, MongoDB unreachable. *)
Definition alice_world_database_down : World :=
  mkWorld example_env 2000
          [alice_doc (example_hash "pw") [alice_refresh 1000]] 2 false []
          true.

(** A computation that leaves the refresh tokens of [id] as they are. *)
Definition keeps_tokens_of (id : string) {A : Type} (c : M A) : Prop :=
  forall w, tokens_of (snd (c w)) id = tokens_of w id.

(** Bob, registered beside Alice, holds the refresh token [bob_refresh]. *)
Definition bob_payload : IAuthPayload := mkPayload "2" "bob@x.com" USER.

Definition bob_refresh : Token :=
  Signed (mkJwt "refresh-secret" bob_payload 1000 (Some (1000 + 2592000))).

Definition alice_and_bob : World :=
  mkWorld example_env 2000
          [alice_doc (example_hash "pw") [alice_refresh 1000];
           mkDoc "2" "bob@x.com" (example_hash "pw2") "Bob" USER true
                 [bob_refresh] 1000 1000] 3 true [] true.

(* ===================================================================== *)
(** * Properties *)
(* ===================================================================== *)

(** ** Tokens and token lists *)

Lemma Token_eqb_refl (t : Token) : Token_eqb t t = true.
Proof. unfold Token_eqb. destruct (Token_eq_dec t t); congruence. Qed.

Lemma Token_eqb_eq (a b : Token) : Token_eqb a b = true <-> a = b.
Proof.
  unfold Token_eqb. destruct (Token_eq_dec a b); split; congruence.
Qed.

Lemma Token_eqb_neq (a b : Token) : Token_eqb a b = false <-> a <> b.
Proof.
  unfold Token_eqb. destruct (Token_eq_dec a b); split; congruence.
Qed.

Lemma includes_pull (t : Token) (l : list Token) :
  includes (pull t l) t = false.
Proof.
  unfold includes, pull. induction l as [|x l IH]; simpl; [reflexivity|].
  destruct (Token_eqb x t) eqn:E; simpl; [exact IH|].
  rewrite E. exact IH.
Qed.

Lemma includes_push (t nt : Token) (l : list Token) :
  includes (push nt l) t = includes l t || Token_eqb nt t.
Proof.
  unfold includes, push. rewrite existsb_app. simpl.
  now rewrite orb_false_r.
Qed.

(** ** The User collection *)

Lemma find_doc_has_id (id : string) (docs : list UserDoc) (d : UserDoc) :
  find_doc (has_id id) docs = Some d -> doc_id d = id.
Proof.
  induction docs as [|x docs IH]; simpl; [discriminate|].
  destruct (has_id id x) eqn:E.
  - intros [= <-]. now apply String.eqb_eq.
  - exact IH.
Qed.

Lemma find_doc_update_same (id : string) (at_ : Z)
    (f : list Token -> list Token) (docs : list UserDoc) :
  find_doc (has_id id) (update_first (has_id id) (with_tokens at_ f) docs)
  = option_map (with_tokens at_ f) (find_doc (has_id id) docs).
Proof.
  induction docs as [|x docs IH]; simpl; [reflexivity|].
  destruct (has_id id x) eqn:E; simpl.
  - unfold has_id in *. simpl. now rewrite E.
  - now rewrite E.
Qed.

Lemma find_doc_update_other (id id' : string) (at_ : Z)
    (f : list Token -> list Token) (docs : list UserDoc) :
  id <> id' ->
  find_doc (has_id id) (update_first (has_id id') (with_tokens at_ f) docs)
  = find_doc (has_id id) docs.
Proof.
  intros Hne. induction docs as [|x docs IH]; simpl; [reflexivity|].
  destruct (has_id id' x) eqn:E'; simpl.
  - unfold has_id in *. simpl.
    destruct (String.eqb (doc_id x) id) eqn:E; [|reflexivity].
    apply String.eqb_eq in E, E'. congruence.
  - now rewrite IH.
Qed.

Lemma tokens_of_update (w : World) (id id' : string) (at_ : Z)
    (f : list Token -> list Token) :
  f [] = [] ->
  tokens_of (set_mongo w (update_first (has_id id') (with_tokens at_ f)
                                        (mongo w))) id
  = if String.eqb id id' then f (tokens_of w id) else tokens_of w id.
Proof.
  intros Hf. unfold tokens_of. simpl.
  destruct (String.eqb id id') eqn:E.
  - apply String.eqb_eq in E. subst id'. rewrite find_doc_update_same.
    destruct (find_doc (has_id id) (mongo w)); simpl; congruence.
  - apply String.eqb_neq in E. now rewrite find_doc_update_other.
Qed.

(** ** [GetUserUseCase] *)

Lemma find_doc_differ_only_in_secrets (id : string) (l1 l2 : list UserDoc) :
  Forall2 differ_only_in_secrets l1 l2 ->
  match find_doc (has_id id) l1, find_doc (has_id id) l2 with
  | Some d1, Some d2 => differ_only_in_secrets d1 d2
  | None, None => True
  | _, _ => False
  end.
Proof.
  induction 1 as [|d1 d2 l1 l2 Hd _ IH]; simpl; [exact I|].
  assert (has_id id d1 = has_id id d2) as ->
    by (unfold has_id; destruct Hd as (-> & _); reflexivity).
  destruct (has_id id d2); [exact Hd | exact IH].
Qed.

(** C9. The result of [GetUserUseCase.execute] is built from the fields of
    the user other than [password] and [refreshTokens]: on two collections
    whose documents agree on all other fields the get-user operation
    returns the same outcome for every id. *)
Theorem get_user_independent_of_password_and_tokens
    (w1 w2 : World) (id : string) :
  mongo_up w1 = mongo_up w2 ->
  Forall2 differ_only_in_secrets (mongo w1) (mongo w2) ->
  fst (GetUserUseCase.execute id w1) = fst (GetUserUseCase.execute id w2).
Proof.
  intros Hup Hdocs.
  unfold GetUserUseCase.execute, bind, MongoUserRepository.findById,
    mongo_call.
  rewrite <- Hup. destruct (mongo_up w1); [|reflexivity].
  pose proof (find_doc_differ_only_in_secrets id _ _ Hdocs) as H.
  destruct (find_doc (has_id id) (mongo w1)) as [d1|],
           (find_doc (has_id id) (mongo w2)) as [d2|];
    try contradiction; [|reflexivity].
  destruct H as (Hid & Hem & Hna & Hro & Hac & Hcr & Hup').
  unfold ret, MongoUserRepository.toDomain. simpl.
  now rewrite Hid, Hem, Hna, Hro, Hac, Hcr, Hup'.
Qed.

Lemma get_user_independent_of_password_and_tokens_witness :
  mongo (alice_world 2000 [alice_refresh 1500])
    <> mongo (alice_world_rehashed 2000) /\
  fst (GetUserUseCase.execute "1" (alice_world 2000 [alice_refresh 1500]))
  = fst (GetUserUseCase.execute "1" (alice_world_rehashed 2000)) /\
  exists u,
    fst (GetUserUseCase.execute "1" (alice_world_rehashed 2000)) = Ok u.
Proof.
  split; [discriminate|]. split.
  - apply (get_user_independent_of_password_and_tokens
             (alice_world 2000 [alice_refresh 1500])
             (alice_world_rehashed 2000) "1").
    + reflexivity.
    + repeat constructor.
  - eexists. reflexivity.
Defined.

(** ** [RegisterUseCase] *)

(** C10. A user that [RegisterUseCase.execute] creates has role [USER], is
    active and holds no refresh token, whatever email, password and name
    were given; this holds of the user returned and of the document added
    to the collection. *)
Theorem register_creates_active_plain_user
    (hashPassword : string -> string) (email password name : string)
    (w w' : World) (u : IUser) :
  RegisterUseCase_execute hashPassword email password name w = (Ok u, w') ->
  user_role u = USER /\ isActive u = true /\ refreshTokens u = [] /\
  exists d, mongo w' = (mongo w ++ [d])%list /\
            MongoUserRepository.toDomain d = u /\
            doc_role d = USER /\ doc_isActive d = true /\
            doc_refreshTokens d = [].
Proof.
  unfold RegisterUseCase_execute, bind, MongoUserRepository.findByEmail,
    MongoUserRepository.create, mongo_call, throw.
  destruct (mongo_up w) eqn:Hup; [|discriminate].
  destruct (find_doc _ (mongo w)); [discriminate|].
  rewrite Hup. simpl.
  destruct (negb _); [discriminate|].
  destruct (find_doc _ (mongo w)); [discriminate|].
  intros [= <- <-]. simpl. repeat split.
  eexists. repeat split.
Qed.

Lemma register_creates_active_plain_user_witness :
  exists u w',
    RegisterUseCase_execute example_hash "Alice@X.com " "admin" "Alice"
                            empty_world = (Ok u, w') /\
    user_role u = USER /\ isActive u = true /\ refreshTokens u = [] /\
    tokens_of w' "1" = [].
Proof.
  eexists. eexists. split; [vm_compute; reflexivity|].
  destruct (register_creates_active_plain_user example_hash
              "Alice@X.com " "admin" "Alice" empty_world _ _ eq_refl)
    as (H1 & H2 & H3 & _).
  repeat split; assumption.
Defined.

(** ** Proof steps shared by the developments below *)

(** Case analysis on the scrutinee of some [match] or [if] of the goal. *)
Ltac break_match :=
  match goal with
  | |- context [match ?x with _ => _ end] =>
      lazymatch x with
      | context [match _ with _ => _ end] => fail
      | _ => destruct x eqn:?
      end
  end.

(** The outcome at hand is a [Throw]. *)
Ltac thrown := eexists; reflexivity.

Ltac unfold_monad :=
  unfold bind, ret, throw, try_catch, get_world, mongo_call in *.

Ltac unfold_stores :=
  unfold MongoUserRepository.findById, MongoUserRepository.findByEmail,
    MongoUserRepository.getRefreshTokens,
    MongoUserRepository.removeRefreshToken,
    MongoUserRepository.addRefreshToken, MongoUserRepository.create,
    redisClient_get, redisClient_set in *.

Ltac unfold_jwt :=
  unfold JwtUtil.generateAccessToken, JwtUtil.generateRefreshToken,
    JwtUtil.verifyAccessToken, JwtUtil.verifyRefreshToken in *.

(** ** The revocation cache when Redis is unreachable *)

Lemma isBlacklisted_keeps_world (t : Token) (w : World) :
  snd (TokenBlacklist.isBlacklisted t w) = w.
Proof.
  unfold TokenBlacklist.isBlacklisted, try_catch, bind, redisClient_get, ret.
  destruct (negb (truthy_token t)); [reflexivity|].
  destruct (redis_up w); reflexivity.
Qed.

Lemma isBlacklisted_unreachable (t : Token) (w : World) :
  redis_up w = false -> TokenBlacklist.isBlacklisted t w = (Ok false, w).
Proof.
  intros Hdown.
  unfold TokenBlacklist.isBlacklisted, try_catch, bind, redisClient_get, ret.
  destruct (negb (truthy_token t)); [reflexivity|].
  now rewrite Hdown.
Qed.

(** C5 (as amended). While Redis is unreachable [isBlacklisted] answers
    [false] for every token: [authenticate] then decides on
    [verifyAccessToken] alone, and the rotation never rejects a token as
    revoked. *)
Theorem unreachable_cache_reads_as_not_revoked
    (w : World) (t : Token) (b : Body) (u : option IAuthPayload) :
  redis_up w = false ->
  TokenBlacklist.isBlacklisted t w = (Ok false, w) /\
  AuthMiddleware.authenticate (mkRequest (Some (Bearer t)) b u) w
  = (Ok match jwt_verify t (JWT_SECRET (env w)) (now w) with
        | Some payload => Next (mkRequest (Some (Bearer t)) b (Some payload))
        | None => Respond (plain 401 "Invalid or expired token")
        end, w) /\
  fst (RefreshTokenUseCase.execute t w) <> Throw "Refresh token is revoked".
Proof.
  intros Hdown. pose proof (isBlacklisted_unreachable t w Hdown) as Hb.
  split; [exact Hb|]. split.
  - unfold AuthMiddleware.authenticate, try_catch, bind. simpl.
    rewrite Hb. unfold JwtUtil.verifyAccessToken, ret.
    destruct (jwt_verify t _ _); reflexivity.
  - unfold RefreshTokenUseCase.execute, bind at 1. rewrite Hb.
    unfold_stores. unfold_jwt. unfold_monad. unfold jwt_sign.
    repeat (break_match; simpl; try discriminate).
Qed.

(** C5, counterexample.  Both of Alice's tokens are on the blacklist.
    While Redis answers, both are rejected; once Redis is unreachable the
    same access token authenticates and the same refresh token rotates,
    with nothing configured to allow it. *)
Lemma unreachable_cache_fails_open :
  fst (AuthMiddleware.authenticate (bearer_request (alice_access 1500))
                                   (revoked_world true))
  = Ok (Respond (plain 401 "Token has been revoked")) /\
  fst (RefreshTokenUseCase.execute (alice_refresh 1500) (revoked_world true))
  = Throw "Refresh token is revoked" /\
  redis_up (revoked_world false) = false /\
  fst (AuthMiddleware.authenticate (bearer_request (alice_access 1500))
                                   (revoked_world false))
  = Ok (Next (mkRequest (Some (Bearer (alice_access 1500)))
                        (mkBody None None None None) (Some alice_payload))) /\
  Rotation.succeeded
    (Rotation.Settled
       (fst (RefreshTokenUseCase.execute (alice_refresh 1500)
                                         (revoked_world false)))) = true.
Proof. repeat split; vm_compute; reflexivity. Qed.

Lemma unreachable_cache_reads_as_not_revoked_witness :
  redis_up (revoked_world false) = false /\
  TokenBlacklist.isBlacklisted (alice_access 1500) (revoked_world false)
  = (Ok false, revoked_world false).
Proof.
  split; [reflexivity|].
  exact (proj1 (unreachable_cache_reads_as_not_revoked
                  (revoked_world false) (alice_access 1500)
                  (mkBody None None None None) None eq_refl)).
Defined.

(** ** Missing signing secrets *)






(** ** What a rejection tells the caller *)

(** C4 (as amended). [POST /refresh] always answers: with 200 and the new
    pair, with 400 when no token was sent, and otherwise with 401 and the
    body [{ success: false, message }] that carries no data.
    [AuthMiddleware.authenticate] rejects with 401 and a body that has only
    a message.  The status is the same for every cause of rejection; the
    message is the one of the check that failed. *)
Theorem rejections_share_status_not_message (req : Request) (w : World) :
  (exists res,
      fst (POST_refresh req w) = Ok res /\
      ((status res = 200 /\ success res = Some true) \/
       res = plain 400 "Missing refresh token" \/
       (exists cause, res = failure 401 cause /\
          fst (RefreshTokenUseCase.execute
                 (match body_refreshToken (body req) with
                  | Some t => t
                  | None => Opaque ""
                  end) w) = Throw cause))) /\
  (exists h,
      fst (AuthMiddleware.authenticate req w) = Ok h /\
      match h with
      | Respond res =>
          exists cause, res = plain 401 cause /\ In cause authenticate_messages
      | Next req' => req_user req' <> None
      end).
Proof.
  split.
  - unfold POST_refresh, AuthController.refreshToken, try_catch, bind, ret.
    destruct (body_refreshToken (body req)) as [t|].
    + destruct (negb (truthy_token t)).
      * eexists. split; [reflexivity|]. right. left. reflexivity.
      * destruct (RefreshTokenUseCase.execute t w) as [[r|e] w'];
          (eexists; split; [reflexivity|]).
        -- left. split; reflexivity.
        -- right. right. exists e. split; reflexivity.
    + eexists. split; [reflexivity|]. right. left. reflexivity.
  - unfold AuthMiddleware.authenticate, try_catch, bind, ret,
      authenticate_messages.
    destruct (authorization req) as [[t|s]|];
      try (eexists; split; [reflexivity|]; simpl; eauto 8; fail).
    pose proof (isBlacklisted_keeps_world t w) as Hw.
    destruct (TokenBlacklist.isBlacklisted t w) as [[b|e] w0]; simpl in Hw;
      subst w0.
    + destruct b; [eexists; split; [reflexivity|]; simpl; eauto 8|].
      unfold JwtUtil.verifyAccessToken.
      destruct (jwt_verify t _ _);
        eexists; (split; [reflexivity|]); simpl; [discriminate|eauto 8].
    + eexists; split; [reflexivity|]; simpl; eauto 8.
Qed.

(** C4, counterexample.  Four refresh requests are rejected for four
    different causes, and the four bodies differ: the answer tells a
    revoked token from a malformed one, from one that was already used,
    and from one whose user does not exist. *)
Lemma refresh_rejections_name_their_cause :
  fst (POST_refresh (refresh_request (alice_refresh 1500))
                    (revoked_world true))
  = Ok (failure 401 "Refresh token is revoked") /\
  fst (POST_refresh (refresh_request (Opaque "garbage")) (revoked_world true))
  = Ok (failure 401 "Invalid refresh token") /\
  fst (POST_refresh (refresh_request ghost_refresh) (revoked_world true))
  = Ok (failure 401 "User not found") /\
  fst (POST_refresh (refresh_request (alice_refresh 1400))
                    (revoked_world true))
  = Ok (failure 401 "Refresh token not found or expired") /\
  failure 401 "User not found" <> failure 401 "Invalid refresh token" /\
  failure 401 "Refresh token is revoked"
  <> failure 401 "Refresh token not found or expired".
Proof. repeat split; try (vm_compute; reflexivity); discriminate. Qed.

Lemma rejections_share_status_not_message_witness :
  exists cause,
    fst (POST_refresh (refresh_request ghost_refresh) (revoked_world true))
    = Ok (failure 401 cause) /\
    fst (RefreshTokenUseCase.execute ghost_refresh (revoked_world true))
    = Throw cause.
Proof.
  destruct (rejections_share_status_not_message
              (refresh_request ghost_refresh) (revoked_world true))
    as ((res & Hres & [(Hstatus & _)|[Hmissing|(cause & Hcause & Hthrown)]])
        & _).
  - exfalso. revert Hres Hstatus. vm_compute. intros [= <-]. discriminate.
  - exfalso. revert Hres. rewrite Hmissing. vm_compute. discriminate.
  - exists cause. rewrite Hres, Hcause. split; [reflexivity|exact Hthrown].
Defined.

(** ** The revocation cache *)

Lemma RedisKey_eqb_eq (a b : RedisKey) : RedisKey_eqb a b = true <-> a = b.
Proof.
  destruct a, b. simpl. rewrite Token_eqb_eq. split; congruence.
Qed.


Lemma redis_find_remove_other (key key' : RedisKey) (at_ : Z)
    (l : list RedisEntry) :
  key <> key' ->
  redis_find key at_ (redis_remove key' l) = redis_find key at_ l.
Proof.
  intros Hne. unfold redis_remove.
  induction l as [|e l IH]; simpl; [reflexivity|].
  destruct (RedisKey_eqb (entry_key e) key') eqn:E'; simpl.
  - apply RedisKey_eqb_eq in E'.
    destruct (RedisKey_eqb (entry_key e) key) eqn:E; [|exact IH].
    apply RedisKey_eqb_eq in E. congruence.
  - now rewrite IH.
Qed.

(** Outside events move the clock forward and leave the contents of both
    stores and the environment as they are. *)
Lemma later_keeps_stores (events : list EnvAction) (w : World) :
  mongo (later events w) = mongo w /\ redis (later events w) = redis w /\
  env (later events w) = env w /\ now w <= now (later events w).
Proof.
  revert w. induction events as [|a events IH]; intros w; simpl.
  - repeat split; lia.
  - destruct (IH (env_step a w)) as (Hm & Hr & He & Hn).
    unfold later in *. rewrite Hm, Hr, He.
    repeat split; destruct a; simpl in *; try reflexivity;
      unfold now in *; simpl in *; lia.
Qed.


(** *** Entries stay until they expire *)


(** [add] returns normally, and either leaves the world as it is or puts
    the entry of the token, with its [exp], in front of the others. *)
Lemma add_effect (t : Token) (w : World) :
  TokenBlacklist.add t w = (Ok tt, w) \/
  exists j e,
    jwt_decode t = Some j /\ jwt_exp j = Some e /\ now w < e /\
    TokenBlacklist.add t w
    = (Ok tt, set_redis w (mkEntry (blacklist t) "1" e
                             :: redis_remove (blacklist t) (redis w))).
Proof.
  unfold TokenBlacklist.add, TokenBlacklist.exp_of.
  destruct (negb (truthy_token t)); [now left|].
  destruct (jwt_decode t) as [j|] eqn:Hd; [|now left].
  destruct (jwt_exp j) as [e|] eqn:He; [|now left].
  destruct (e =? 0); [now left|].
  unfold try_catch, bind, get_world, redisClient_set, ret.
  destruct (Z.leb_spec (e - now w) 0); [now left|].
  unfold set_redis. destruct (redis_up w); [|now left].
  right. exists j, e. repeat split; try assumption; try lia.
  repeat f_equal. lia.
Qed.


Lemma revoked_at_other (w : World) (t t' : Token) (e at_ : Z) :
  t' <> t ->
  revoked_at (set_redis w (mkEntry (blacklist t') "1" e
                             :: redis_remove (blacklist t') (redis w))) t at_
  = revoked_at w t at_.
Proof.
  intros Hne. unfold revoked_at. simpl.
  assert (Token_eqb t' t = false) as -> by now apply Token_eqb_neq.
  simpl. rewrite redis_find_remove_other; [reflexivity|congruence].
Qed.

Lemma add_keeps_rest (t : Token) (w : World) :
  fst (TokenBlacklist.add t w) = Ok tt /\
  mongo (snd (TokenBlacklist.add t w)) = mongo w /\
  env (snd (TokenBlacklist.add t w)) = env w /\
  clock (snd (TokenBlacklist.add t w)) = clock w /\
  mongo_up (snd (TokenBlacklist.add t w)) = mongo_up w /\
  redis_up (snd (TokenBlacklist.add t w)) = redis_up w.
Proof.
  destruct (add_effect t w) as [->|(j & e & _ & _ & _ & ->)];
    repeat split; reflexivity.
Qed.

(** ** Rejections of the rotation *)

Lemma jwt_verify_subject (t : Token) (secret : option string) (at_ : Z)
    (p : IAuthPayload) :
  jwt_verify t secret at_ = Some p -> userId p = subject t.
Proof.
  unfold jwt_verify. destruct t as [s|j]; [discriminate|].
  destruct secret as [key|]; [|discriminate].
  destruct (truthy key && String.eqb (jwt_key j) key); [|discriminate].
  destruct (jwt_exp j) as [e|]; [destruct (e <=? at_); [discriminate|]|];
    now intros [= <-].
Qed.



Lemma rotate_rejects_unverified (t : Token) (w : World) :
  jwt_verify t (JWT_REFRESH_SECRET (env w)) (now w) = None ->
  exists e, fst (RefreshTokenUseCase.execute t w) = Throw e.
Proof.
  intros Hv. unfold RefreshTokenUseCase.execute, bind at 1.
  pose proof (isBlacklisted_keeps_world t w) as Hw.
  destruct (TokenBlacklist.isBlacklisted t w) as [[b|e] w0]; simpl in Hw;
    subst w0; [|thrown].
  destruct b; [thrown|].
  unfold bind, JwtUtil.verifyRefreshToken. rewrite Hv. thrown.
Qed.

(** A token that is not among the refresh tokens of the user it was signed
    for is rejected; when all earlier checks pass, the rejection is the one
    of the membership check. *)
Lemma rotate_rejects_unregistered (t : Token) (w : World) :
  includes (tokens_of w (subject t)) t = false ->
  exists e,
    RefreshTokenUseCase.execute t w = (Throw e, w) /\
    (fst (TokenBlacklist.isBlacklisted t w) = Ok false ->
     jwt_verify t (JWT_REFRESH_SECRET (env w)) (now w) <> None ->
     mongo_up w = true ->
     find_doc (has_id (subject t)) (mongo w) <> None ->
     e = "Refresh token not found or expired").
Proof.
  intros Hnot. unfold RefreshTokenUseCase.execute.
  unfold bind at 1.
  pose proof (isBlacklisted_keeps_world t w) as Hw.
  destruct (TokenBlacklist.isBlacklisted t w) as [[b|e] w0]; simpl in Hw;
    subst w0; simpl; [|eexists; split; [reflexivity|discriminate]].
  destruct b; [eexists; split; [reflexivity|discriminate]|].
  unfold bind at 1, JwtUtil.verifyRefreshToken.
  destruct (jwt_verify t _ _) as [p|] eqn:Hv;
    [|eexists; split; [reflexivity|congruence]].
  apply jwt_verify_subject in Hv. rewrite Hv.
  unfold bind at 1, MongoUserRepository.findById, mongo_call.
  destruct (mongo_up w) eqn:Hup;
    [|eexists; split; [reflexivity|discriminate]].
  unfold tokens_of in Hnot.
  destruct (find_doc (has_id (subject t)) (mongo w)) as [d|] eqn:Hf;
    [|eexists; split; [reflexivity|congruence]].
  unfold bind at 1, MongoUserRepository.getRefreshTokens, mongo_call.
  rewrite Hup. simpl. rewrite (find_doc_has_id _ _ _ Hf), Hf, Hnot. simpl.
  eexists; split; reflexivity.
Qed.

(** ** Logout *)



Lemma isBlacklisted_total (t : Token) (w : World) :
  exists b, TokenBlacklist.isBlacklisted t w = (Ok b, w).
Proof.
  unfold TokenBlacklist.isBlacklisted, try_catch, bind, redisClient_get, ret.
  destruct (negb (truthy_token t)); [eauto|].
  destruct (redis_up w); eauto.
Qed.

Lemma authenticate_bearer (t : Token) (w : World) (b : bool) :
  TokenBlacklist.isBlacklisted t w = (Ok b, w) ->
  AuthMiddleware.authenticate (bearer_request t) w
  = (Ok (if b then Respond (plain 401 "Token has been revoked")
         else match jwt_verify t (JWT_SECRET (env w)) (now w) with
              | Some payload =>
                  Next (mkRequest (Some (Bearer t))
                                  (mkBody None None None None) (Some payload))
              | None => Respond (plain 401 "Invalid or expired token")
              end), w).
Proof.
  intros Hb.
  unfold AuthMiddleware.authenticate, try_catch, bind, bearer_request.
  cbn [authorization body]. rewrite Hb. destruct b; [reflexivity|].
  unfold JwtUtil.verifyAccessToken, ret.
  now destruct (jwt_verify t _ _).
Qed.

Lemma tokens_of_later (events : list EnvAction) (w : World) (id : string) :
  tokens_of (later events w) id = tokens_of w id.
Proof.
  unfold tokens_of. now destruct (later_keeps_stores events w) as (-> & _).
Qed.


(** ** The rotation, [await] by [await] *)

Import Rotation.

Lemma step_AwaitIsBlacklisted (t : Token) (w : World) (b : bool) :
  TokenBlacklist.isBlacklisted t w = (Ok b, w) ->
  step t AwaitIsBlacklisted w
  = (if b then Settled (Throw "Refresh token is revoked")
     else match jwt_verify t (JWT_REFRESH_SECRET (env w)) (now w) with
          | Some payload => AwaitFindById payload
          | None => Settled (Throw "Invalid refresh token")
          end, w).
Proof.
  intros Hb. unfold step, resume, bind. rewrite Hb.
  destruct b; [reflexivity|].
  unfold JwtUtil.verifyRefreshToken.
  now destruct (jwt_verify t _ _).
Qed.

Lemma step_AwaitFindById (t : Token) (w : World) (p : IAuthPayload) :
  step t (AwaitFindById p) w
  = (if mongo_up w
     then match find_doc (has_id (userId p)) (mongo w) with
          | Some d => AwaitGetRefreshTokens (MongoUserRepository.toDomain d)
          | None => Settled (Throw "User not found")
          end
     else Settled (Throw mongo_unreachable), w).
Proof.
  unfold step, resume, bind, MongoUserRepository.findById, mongo_call.
  destruct (mongo_up w); [|reflexivity].
  now destruct (find_doc _ (mongo w)).
Qed.

Lemma step_AwaitGetRefreshTokens (t : Token) (w : World) (u : IUser) :
  step t (AwaitGetRefreshTokens u) w
  = (if mongo_up w
     then if includes (tokens_of w (bang (_id u))) t
          then match JwtUtil.generateAccessToken (payload_of u) w with
               | (Ok a, _) =>
                   match JwtUtil.generateRefreshToken (payload_of u) w with
                   | (Ok nt, _) => AwaitRemoveRefreshToken u a nt
                   | (Throw e, _) => Settled (Throw e)
                   end
               | (Throw e, _) => Settled (Throw e)
               end
          else Settled (Throw "Refresh token not found or expired")
     else Settled (Throw mongo_unreachable), w).
Proof.
  unfold step, resume, MongoUserRepository.getRefreshTokens, mongo_call,
    tokens_of.
  unfold bind at 1.
  destruct (mongo_up w); [|reflexivity].
  assert (forall tokens,
    match (if negb (includes tokens t)
           then throw "Refresh token not found or expired"
           else
             accessToken <- JwtUtil.generateAccessToken (payload_of u) ;;
             newRefreshToken <- JwtUtil.generateRefreshToken (payload_of u) ;;
             ret (AwaitRemoveRefreshToken u accessToken newRefreshToken)) w
    with
    | (Ok pc', w') => (pc', w')
    | (Throw e, w') => (Settled (Throw e), w')
    end
    = (if includes tokens t
       then match JwtUtil.generateAccessToken (payload_of u) w with
            | (Ok a, _) =>
                match JwtUtil.generateRefreshToken (payload_of u) w with
                | (Ok nt, _) => AwaitRemoveRefreshToken u a nt
                | (Throw e, _) => Settled (Throw e)
                end
            | (Throw e, _) => Settled (Throw e)
            end
       else Settled (Throw "Refresh token not found or expired"), w)) as H.
  { intros tokens. destruct (includes tokens t); [|reflexivity].
    cbn [negb]. unfold bind, ret, JwtUtil.generateAccessToken,
      JwtUtil.generateRefreshToken.
    destruct (jwt_sign _ (JWT_SECRET _) _ _); [|reflexivity].
    now destruct (jwt_sign _ (JWT_REFRESH_SECRET _) _ _). }
  destruct (find_doc _ (mongo w)); apply H.
Qed.

Lemma step_AwaitRemoveRefreshToken (t : Token) (w : World) (u : IUser)
    (a nt : Token) :
  step t (AwaitRemoveRefreshToken u a nt) w
  = if mongo_up w
    then (AwaitAddRefreshToken u a nt,
          set_mongo w (update_first (has_id (bang (_id u)))
                                    (with_tokens (now w) (pull t)) (mongo w)))
    else (Settled (Throw mongo_unreachable), w).
Proof.
  unfold step, resume, bind, MongoUserRepository.removeRefreshToken,
    mongo_call.
  now destruct (mongo_up w).
Qed.

Lemma step_AwaitAddRefreshToken (t : Token) (w : World) (u : IUser)
    (a nt : Token) :
  step t (AwaitAddRefreshToken u a nt) w
  = if mongo_up w
    then (Settled (Ok (mkAuthResponse a nt (summary_of u))),
          set_mongo w (update_first (has_id (bang (_id u)))
                                    (with_tokens (now w) (push nt)) (mongo w)))
    else (Settled (Throw mongo_unreachable), w).
Proof.
  unfold step, resume, bind, MongoUserRepository.addRefreshToken, mongo_call.
  now destruct (mongo_up w).
Qed.

Lemma step_Settled (t : Token) (w : World) (outcome : Res IAuthResponse) :
  step t (Settled outcome) w = (Settled outcome, w).
Proof. reflexivity. Qed.

(** Resuming an attempt five times in a row, with nothing happening in
    between, is [RefreshTokenUseCase.execute]. *)
Lemma run_uninterrupted (t : Token) (w : World) :
  run t uninterrupted AwaitIsBlacklisted w
  = (let (outcome, w') := RefreshTokenUseCase.execute t w in
     (Settled outcome, w')).
Proof.
  destruct (isBlacklisted_total t w) as (b & Hb).
  unfold uninterrupted, RefreshTokenUseCase.execute.
  cbn [run]. rewrite (step_AwaitIsBlacklisted t w b Hb).
  unfold bind at 1. rewrite Hb.
  destruct b; [reflexivity|].
  unfold bind at 1, JwtUtil.verifyRefreshToken at 1.
  destruct (jwt_verify t _ _) as [p|]; [|reflexivity].
  rewrite step_AwaitFindById.
  unfold bind at 1, MongoUserRepository.findById at 1, mongo_call at 1.
  destruct (mongo_up w) eqn:Hup; [|reflexivity].
  destruct (find_doc (has_id (userId p)) (mongo w)) as [d|]; [|reflexivity].
  rewrite step_AwaitGetRefreshTokens.
  unfold bind at 1, MongoUserRepository.getRefreshTokens at 1,
    mongo_call at 1, tokens_of.
  rewrite Hup.
  match goal with
  | |- context [match ?x with Some d' => (Ok (doc_refreshTokens d'), w)
                               | None => (Ok [], w) end] =>
      replace x
        with (find_doc (has_id (bang (_id (MongoUserRepository.toDomain d))))
                       (mongo w)) by reflexivity
  end.
  destruct (find_doc (has_id (bang (_id (MongoUserRepository.toDomain d))))
                     (mongo w)) as [d'|];
    (match goal with
     | |- context [includes ?l ?x] => destruct (includes l x)
     end; [|reflexivity]);
    cbn [negb]; unfold bind at 1;
    unfold JwtUtil.generateAccessToken, JwtUtil.generateRefreshToken;
    (destruct (jwt_sign _ (JWT_SECRET (env w)) _ _) as [a|]; [|reflexivity]);
    unfold bind at 1;
    (destruct (jwt_sign _ (JWT_REFRESH_SECRET (env w)) _ _) as [nt|];
     [|reflexivity]);
    rewrite step_AwaitRemoveRefreshToken;
    unfold bind at 1, MongoUserRepository.removeRefreshToken at 1,
      mongo_call at 1;
    rewrite Hup;
    rewrite step_AwaitAddRefreshToken;
    unfold bind, MongoUserRepository.addRefreshToken, mongo_call, ret;
    cbn [set_mongo mongo_up]; rewrite Hup; reflexivity.
Qed.

(** *** What one attempt does to the collection *)

Lemma env_step_keeps_stores (a : EnvAction) (w : World) :
  mongo (env_step a w) = mongo w /\ redis (env_step a w) = redis w /\
  env (env_step a w) = env w.
Proof. destruct a; repeat split. Qed.

Lemma tokens_of_env_step (a : EnvAction) (w : World) (id : string) :
  tokens_of (env_step a w) id = tokens_of w id.
Proof. now destruct a. Qed.

Lemma tokens_of_update_found (w : World) (id : string) (at_ : Z)
    (f : list Token -> list Token) :
  find_doc (has_id id) (mongo w) <> None ->
  tokens_of (set_mongo w (update_first (has_id id) (with_tokens at_ f)
                                        (mongo w))) id
  = f (tokens_of w id).
Proof.
  intros Hf. unfold tokens_of. cbn [set_mongo mongo].
  rewrite find_doc_update_same.
  now destruct (find_doc (has_id id) (mongo w)).
Qed.

Lemma tokens_of_update_elsewhere (w : World) (id id' : string) (at_ : Z)
    (f : list Token -> list Token) :
  id <> id' ->
  tokens_of (set_mongo w (update_first (has_id id') (with_tokens at_ f)
                                        (mongo w))) id
  = tokens_of w id.
Proof.
  intros Hne. unfold tokens_of. cbn [set_mongo mongo].
  now rewrite find_doc_update_other.
Qed.

Lemma find_doc_update_found (w : World) (id id' : string) (at_ : Z)
    (f : list Token -> list Token) :
  find_doc (has_id id) (mongo w) <> None ->
  find_doc (has_id id)
           (update_first (has_id id') (with_tokens at_ f) (mongo w)) <> None.
Proof.
  intros Hf. destruct (string_dec id id') as [<-|Hne].
  - rewrite find_doc_update_same.
    now destruct (find_doc (has_id id) (mongo w)).
  - now rewrite find_doc_update_other.
Qed.

(** Each resumption keeps the attempt on the user the token names. *)
Lemma step_works_on_subject (t : Token) (pc : Pc) (w : World) :
  works_on_subject t pc -> works_on_subject t (fst (step t pc w)).
Proof.
  destruct pc as [|p|u|u a nt|u a nt|o]; intros Hs.
  - destruct (isBlacklisted_total t w) as (b & Hb).
    rewrite (step_AwaitIsBlacklisted t w b Hb). cbn [fst].
    destruct b; [exact I|].
    destruct (jwt_verify t _ _) as [p|] eqn:Hv; [|exact I].
    exact (jwt_verify_subject _ _ _ _ Hv).
  - rewrite step_AwaitFindById. cbn [fst].
    destruct (mongo_up w); [|exact I].
    destruct (find_doc _ (mongo w)) as [d|] eqn:Hf; [|exact I].
    cbn. rewrite (find_doc_has_id _ _ _ Hf). exact Hs.
  - rewrite step_AwaitGetRefreshTokens. cbn [fst].
    destruct (mongo_up w); [|exact I].
    destruct (includes _ t); [|exact I].
    destruct (JwtUtil.generateAccessToken _ w) as [[a|e] w1]; [|exact I].
    destruct (JwtUtil.generateRefreshToken _ w) as [[nt|e] w2]; [|exact I].
    exact Hs.
  - rewrite step_AwaitRemoveRefreshToken.
    destruct (mongo_up w); [exact Hs|exact I].
  - rewrite step_AwaitAddRefreshToken.
    destruct (mongo_up w); exact I.
  - exact I.
Qed.

(** Up to the membership check a resumption only reads. *)
Lemma step_reads_only (t : Token) (pc : Pc) (w : World) :
  before_membership pc = true \/ (exists o, pc = Settled o) ->
  snd (step t pc w) = w.
Proof.
  intros [Hb|(o & ->)]; [|reflexivity].
  destruct pc as [|p|u|u a nt|u a nt|o]; try discriminate.
  - destruct (isBlacklisted_total t w) as (b & Hb').
    now rewrite (step_AwaitIsBlacklisted t w b Hb').
  - now rewrite step_AwaitFindById.
  - now rewrite step_AwaitGetRefreshTokens.
Qed.

Lemma attempt_inv_step (t : Token) (w0 w : World) (pc : Pc) :
  attempt_inv t w0 w pc ->
  attempt_inv t w0 (snd (step t pc w)) (fst (step t pc w)).
Proof.
  intros (Hs & Hu & Hr & Ho).
  pose proof (step_works_on_subject t pc w Hs) as Hs'.
  destruct pc as [|p|u|u a nt|u a nt|o].
  - rewrite (step_reads_only t _ w) by (left; reflexivity).
    destruct (isBlacklisted_total t w) as (b & Hb).
    rewrite (step_AwaitIsBlacklisted t w b Hb) in *. cbn [fst] in *.
    repeat split; try assumption.
    + destruct b; [discriminate|]. now destruct (jwt_verify t _ _).
    + cbn in Hr. destruct b; [now left|].
      destruct (jwt_verify t _ _); [exact Hr|now left].
  - rewrite (step_reads_only t _ w) by (left; reflexivity).
    rewrite step_AwaitFindById in *. cbn [fst] in *. cbn in Hs, Hr.
    repeat split; try assumption.
    + destruct (mongo_up w); [|discriminate].
      rewrite <- Hs.
      destruct (find_doc (has_id (userId p)) (mongo w)); cbn;
        [intros _|]; discriminate.
    + destruct (mongo_up w); [|now left].
      destruct (find_doc (has_id (userId p)) (mongo w)); [exact Hr|now left].
  - rewrite (step_reads_only t _ w) by (left; reflexivity).
    rewrite step_AwaitGetRefreshTokens in *. cbn [fst] in *. cbn in Hr.
    repeat split; try assumption.
    + intros _. now apply Hu.
    + destruct (mongo_up w); [|now left].
      destruct (includes _ t); [|now left].
      destruct (JwtUtil.generateAccessToken _ w) as [[a|e] w1]; [|now left].
      destruct (JwtUtil.generateRefreshToken _ w) as [[nt|e] w2];
        [exact Hr|now left].
  - rewrite step_AwaitRemoveRefreshToken in *. cbn in Hs, Hr.
    destruct (mongo_up w); cbn [fst snd] in *.
    + rewrite Hs. split; [exact Hs|]. split; [|split].
      * intros _. apply find_doc_update_found. now apply Hu.
      * cbn. rewrite tokens_of_update by reflexivity.
        rewrite String.eqb_refl. now rewrite Hr.
      * intros id Hne. rewrite tokens_of_update_elsewhere by exact Hne.
        now apply Ho.
    + split; [exact I|]. split; [discriminate|]. split; [now left|exact Ho].
  - rewrite step_AwaitAddRefreshToken in *. cbn in Hs, Hr.
    destruct (mongo_up w); cbn [fst snd] in *.
    + rewrite Hs. split; [exact I|]. split; [discriminate|]. split.
      * cbn. rewrite tokens_of_update_found by now apply Hu.
        now rewrite Hr.
      * intros id Hne. rewrite tokens_of_update_elsewhere by exact Hne.
        now apply Ho.
    + split; [exact I|]. split; [discriminate|]. split; [now right|exact Ho].
  - repeat split; assumption.
Qed.

Lemma attempt_inv_env_step (t : Token) (w0 w : World) (pc : Pc)
    (a : EnvAction) :
  attempt_inv t w0 w pc -> attempt_inv t w0 (env_step a w) pc.
Proof.
  intros (Hs & Hu & Hr & Ho). unfold attempt_inv.
  rewrite tokens_of_env_step.
  destruct (env_step_keeps_stores a w) as (-> & _).
  repeat split; try assumption.
  intros id Hne. rewrite tokens_of_env_step. now apply Ho.
Qed.

Lemma attempt_inv_run (t : Token) (w0 : World)
    (trace : list (option EnvAction)) :
  forall pc w,
    attempt_inv t w0 w pc ->
    attempt_inv t w0 (snd (run t trace pc w)) (fst (run t trace pc w)).
Proof.
  induction trace as [|[a|] trace IH]; intros pc w Hinv; cbn [run].
  - exact Hinv.
  - apply IH. now apply attempt_inv_env_step.
  - pose proof (attempt_inv_step t w0 w pc Hinv) as Hstep.
    destruct (step t pc w) as [pc' w']. now apply IH.
Qed.

(** C3 (as amended). Through a rotation of [t], stopped anywhere and with
    the stores failing at any moment, the refresh tokens of the user [t]
    names are: those of the start until the removal has run; those of the
    start without [t] once it has run, the new token not yet recorded;
    and those with the new token appended once the rotation has returned.
    A rotation that throws leaves one of the first two.  The tokens of
    every other user stay as they were. *)
Theorem rotation_removes_then_adds (t : Token)
    (trace : list (option EnvAction)) (w : World) :
  registry_stage t (tokens_of w (subject t))
    (tokens_of (snd (run t trace AwaitIsBlacklisted w)) (subject t))
    (fst (run t trace AwaitIsBlacklisted w)) /\
  forall id, id <> subject t ->
    tokens_of (snd (run t trace AwaitIsBlacklisted w)) id = tokens_of w id.
Proof.
  assert (Hstart : attempt_inv t w w AwaitIsBlacklisted)
    by (repeat split; discriminate).
  destruct (attempt_inv_run t w trace _ _ Hstart) as (_ & _ & Hr & Ho).
  split; assumption.
Qed.

(** C3, counterexample.  After the fourth resumption the presented token
    is gone from Alice's refresh tokens and the new one is not recorded.
    When MongoDB becomes unreachable at that moment the rotation throws
    and the state stays: Alice holds no refresh token at all. *)
Lemma interrupted_rotation_removes_without_adding :
  fst (run (alice_refresh 1500) [None; None; None; None] AwaitIsBlacklisted
           (alice_world 2000 [alice_refresh 1500]))
  = AwaitAddRefreshToken
      (MongoUserRepository.toDomain
         (alice_doc (example_hash "pw") [alice_refresh 1500]))
      (alice_access 2000) (alice_refresh 2000) /\
  tokens_of (snd (run (alice_refresh 1500) [None; None; None; None]
                      AwaitIsBlacklisted
                      (alice_world 2000 [alice_refresh 1500]))) "1" = [] /\
  fst (run (alice_refresh 1500) interrupted AwaitIsBlacklisted
           (alice_world 2000 [alice_refresh 1500]))
  = Settled (Throw mongo_unreachable) /\
  tokens_of (snd (run (alice_refresh 1500) interrupted AwaitIsBlacklisted
                      (alice_world 2000 [alice_refresh 1500]))) "1" = [].
Proof. repeat split; vm_compute; reflexivity. Qed.

Lemma rotation_removes_then_adds_witness :
  succeeded (fst (run (alice_refresh 1500) uninterrupted AwaitIsBlacklisted
                      (alice_world 2000 [alice_refresh 1500;
                                         alice_refresh 1600]))) = true /\
  registry_stage (alice_refresh 1500)
    [alice_refresh 1500; alice_refresh 1600]
    (tokens_of (snd (run (alice_refresh 1500) uninterrupted AwaitIsBlacklisted
                         (alice_world 2000 [alice_refresh 1500;
                                            alice_refresh 1600]))) "1")
    (fst (run (alice_refresh 1500) uninterrupted AwaitIsBlacklisted
              (alice_world 2000 [alice_refresh 1500; alice_refresh 1600]))) /\
  tokens_of (snd (run (alice_refresh 1500) uninterrupted AwaitIsBlacklisted
                      (alice_world 2000 [alice_refresh 1500;
                                         alice_refresh 1600]))) "1"
  = [alice_refresh 1600; alice_refresh 2000].
Proof.
  split; [vm_compute; reflexivity|]. split; [|vm_compute; reflexivity].
  exact (proj1 (rotation_removes_then_adds (alice_refresh 1500) uninterrupted
                  (alice_world 2000 [alice_refresh 1500;
                                     alice_refresh 1600]))).
Defined.

(** ** One rotation after another *)

(** After a rotation that returned, the presented token is still among the
    refresh tokens of its user exactly when the token issued is the
    presented one again. *)
Lemma rotation_keeps_token_iff_reissued (t : Token) (w : World)
    (response : IAuthResponse) :
  fst (RefreshTokenUseCase.execute t w) = Ok response ->
  includes (tokens_of (rotated t w) (subject t)) t
  = Token_eqb (refreshToken response) t.
Proof.
  intros Hok. unfold rotated.
  assert (Hstart : attempt_inv t w w AwaitIsBlacklisted)
    by (repeat split; discriminate).
  destruct (attempt_inv_run t w uninterrupted _ _ Hstart)
    as (_ & _ & Hstage & _).
  rewrite run_uninterrupted in Hstage.
  destruct (RefreshTokenUseCase.execute t w) as [outcome w'].
  cbn [fst snd] in *. subst outcome. cbn in Hstage.
  rewrite Hstage, includes_push, includes_pull. reflexivity.
Qed.

(** Presenting a token again after a rotation that issued another token is
    rejected, whatever time has passed; when the earlier checks pass, it is
    rejected by the membership check. *)
Lemma rotation_consumes_token (t : Token) (w : World)
    (response : IAuthResponse) (events : list EnvAction) :
  fst (RefreshTokenUseCase.execute t w) = Ok response ->
  refreshToken response <> t ->
  exists e,
    RefreshTokenUseCase.execute t (later events (rotated t w))
    = (Throw e, later events (rotated t w)) /\
    (fst (TokenBlacklist.isBlacklisted t (later events (rotated t w)))
     = Ok false ->
     jwt_verify t (JWT_REFRESH_SECRET (env (later events (rotated t w))))
                (now (later events (rotated t w))) <> None ->
     mongo_up (later events (rotated t w)) = true ->
     find_doc (has_id (subject t)) (mongo (later events (rotated t w)))
       <> None ->
     e = "Refresh token not found or expired").
Proof.
  intros Hok Hne. apply rotate_rejects_unregistered.
  rewrite tokens_of_later, (rotation_keeps_token_iff_reissued t w response Hok).
  now apply Token_eqb_neq.
Qed.

(** The refresh token a rotation issues carries the second of the rotation
    as its [iat]. *)
Lemma jwt_sign_iat (p : IAuthPayload) (secret : option string)
    (expiresIn : string) (at_ : Z) (t : Token) :
  jwt_sign p secret expiresIn at_ = Ok t ->
  exists j, t = Signed j /\ jwt_iat j = at_.
Proof.
  unfold jwt_sign. destruct secret as [key|]; [|discriminate].
  destruct (negb (truthy key)); [discriminate|].
  destruct (ms expiresIn); [|discriminate].
  intros [= <-]. eauto.
Qed.

Lemma rotation_issues_token_of_now (t : Token) (w : World)
    (response : IAuthResponse) :
  fst (RefreshTokenUseCase.execute t w) = Ok response ->
  exists j, refreshToken response = Signed j /\ jwt_iat j = now w.
Proof.
  unfold RefreshTokenUseCase.execute.
  unfold bind at 1.
  pose proof (isBlacklisted_keeps_world t w) as Hw.
  destruct (TokenBlacklist.isBlacklisted t w) as [[b|e] w0]; simpl in Hw;
    subst w0; [|discriminate].
  destruct b; [discriminate|].
  unfold bind at 1, JwtUtil.verifyRefreshToken.
  destruct (jwt_verify t _ _) as [p|]; [|discriminate].
  unfold bind at 1, MongoUserRepository.findById, mongo_call.
  destruct (mongo_up w) eqn:Hup; [|discriminate].
  destruct (find_doc (has_id (userId p)) (mongo w)) as [d|]; [|discriminate].
  unfold bind at 1, MongoUserRepository.getRefreshTokens, mongo_call.
  rewrite Hup.
  destruct (find_doc _ (mongo w)) as [d'|];
    (destruct (negb (includes _ t)); [discriminate|]);
    unfold bind at 1; unfold JwtUtil.generateAccessToken at 1;
    (destruct (jwt_sign _ (JWT_SECRET (env w)) _ _) as [at_|];
     [|discriminate]);
    unfold bind at 1; unfold JwtUtil.generateRefreshToken at 1;
    (destruct (jwt_sign _ (JWT_REFRESH_SECRET (env w)) _ _) as [nt|] eqn:Hnt;
     [|discriminate]);
    unfold bind, MongoUserRepository.removeRefreshToken,
      MongoUserRepository.addRefreshToken, mongo_call, ret;
    rewrite Hup; cbn [set_mongo mongo_up]; rewrite Hup;
    intros [= <-]; cbn [refreshToken];
    exact (jwt_sign_iat _ _ _ _ _ Hnt).
Qed.

(** A token that was signed in an earlier second is consumed by its
    rotation: exactly-once holds for it. *)
Lemma rotation_of_older_token_consumes_it (t : Token) (j : Jwt) (w : World)
    (response : IAuthResponse) (events : list EnvAction) :
  t = Signed j -> jwt_iat j <> now w ->
  fst (RefreshTokenUseCase.execute t w) = Ok response ->
  exists e,
    RefreshTokenUseCase.execute t (later events (rotated t w))
    = (Throw e, later events (rotated t w)).
Proof.
  intros Ht Hiat Hok.
  destruct (rotation_issues_token_of_now t w response Hok) as (j' & Hj & Hnow).
  destruct (rotation_consumes_token t w response events Hok) as (e & He & _).
  - rewrite Hj, Ht. intros [= ->]. congruence.
  - eauto.
Qed.

(** C2, the failing input.  Alice logs in at second 1000 and presents the
    refresh token she got within the same second.  The rotation signs the
    same claims with the same [iat] and [exp]: the token it issues is the
    presented one, which is removed and appended again.  A second
    rotation of the same token succeeds.  One second later the rotation
    issues another token and the second attempt is rejected by the
    membership check. *)
Theorem rotation_in_the_issuing_second_reissues_the_token :
  reissued (fst (LoginUseCase_execute example_compare "alice@x.com" "pw"
                                      (alice_registered 1000)))
  = Some (alice_refresh 1000) /\
  reissued (fst (RefreshTokenUseCase.execute (alice_refresh 1000)
                                             alice_logged_in))
  = Some (alice_refresh 1000) /\
  tokens_of (rotated (alice_refresh 1000) alice_logged_in) "1"
  = [alice_refresh 1000] /\
  reissued (fst (RefreshTokenUseCase.execute (alice_refresh 1000)
                   (rotated (alice_refresh 1000) alice_logged_in)))
  = Some (alice_refresh 1000) /\
  fst (RefreshTokenUseCase.execute (alice_refresh 1000)
         (rotated (alice_refresh 1000) (later [Tick 1] alice_logged_in)))
  = Throw "Refresh token not found or expired".
Proof. repeat split; vm_compute; reflexivity. Qed.

(** ** Two attempts on one token *)

Lemma includes_tokens_after_pull (w : World) (id : string) (at_ : Z)
    (t : Token) :
  includes (tokens_of (set_mongo w (update_first (has_id id)
                          (with_tokens at_ (pull t)) (mongo w))) id) t
  = false.
Proof.
  rewrite tokens_of_update by reflexivity. rewrite String.eqb_refl.
  apply includes_pull.
Qed.

Lemma includes_tokens_after_push (w : World) (id id' : string) (at_ : Z)
    (t nt : Token) :
  nt <> t ->
  includes (tokens_of (set_mongo w (update_first (has_id id)
                          (with_tokens at_ (push nt)) (mongo w))) id') t
  = includes (tokens_of w id') t.
Proof.
  intros Hne. destruct (string_dec id' id) as [->|Hid].
  - unfold tokens_of. cbn [set_mongo mongo]. rewrite find_doc_update_same.
    destruct (find_doc (has_id id) (mongo w)) as [d|]; [|reflexivity].
    cbn [option_map]. unfold with_tokens. cbn [doc_refreshTokens].
    rewrite includes_push.
    assert (Token_eqb nt t = false) as -> by now apply Token_eqb_neq.
    apply orb_false_r.
  - now rewrite tokens_of_update_elsewhere.
Qed.

(** An attempt that has not read the refresh tokens had not read them
    before its last resumption either. *)
Lemma step_before_membership (t : Token) (pc : Pc) (w : World) :
  before_membership (fst (step t pc w)) = true ->
  before_membership pc = true.
Proof.
  destruct pc as [|p|u|u a nt|u a nt|o]; try reflexivity.
  - rewrite step_AwaitRemoveRefreshToken. now destruct (mongo_up w).
  - rewrite step_AwaitAddRefreshToken. now destruct (mongo_up w).
  - now rewrite step_Settled.
Qed.

(** With the token not registered, an attempt that has not passed the
    membership check does not pass it. *)
Lemma step_stops_at_membership (t : Token) (pc : Pc) (w : World) :
  works_on_subject t pc ->
  includes (tokens_of w (subject t)) t = false ->
  past_membership pc = false ->
  past_membership (fst (step t pc w)) = false.
Proof.
  intros Hs Hnot Hpast.
  destruct pc as [|p|u|u a nt|u a nt|o]; try discriminate.
  - destruct (isBlacklisted_total t w) as (b & Hb).
    rewrite (step_AwaitIsBlacklisted t w b Hb). cbn [fst].
    destruct b; [reflexivity|]. now destruct (jwt_verify t _ _).
  - rewrite step_AwaitFindById. cbn [fst].
    destruct (mongo_up w); [|reflexivity].
    now destruct (find_doc _ (mongo w)).
  - rewrite step_AwaitGetRefreshTokens. cbn [fst]. cbn in Hs.
    rewrite Hs, Hnot. now destruct (mongo_up w).
  - exact Hpast.
Qed.

Lemma race_inv_start (t : Token) (w : World) : race_inv t (Race.start w).
Proof. repeat split. Qed.

Lemma race_inv_act (t : Token) (a : Race.Action) (s : Race.State) :
  race_inv t s -> race_inv t (Race.act t t a s).
Proof.
  destruct s as [w pcA pcB]. intros (HA & HB & Hrem). cbn in HA, HB, Hrem.
  destruct a as [[|]|e]; cbn [Race.act Race.first Race.second Race.world].
  - (* the first attempt is resumed *)
    pose proof (step_works_on_subject t pcA w HA) as HA'.
    destruct pcA as [|p|u|u at_ nt|u at_ nt|o].
    + destruct (isBlacklisted_total t w) as (b & Hb).
      rewrite (step_AwaitIsBlacklisted t w b Hb) in *.
      repeat split; try assumption. intros _.
      cbn [Race.first Race.second Race.world fst snd].
      destruct b; [exact I|]. now destruct (jwt_verify t _ _).
    + rewrite step_AwaitFindById in *.
      repeat split; try assumption. intros _.
      cbn [Race.first Race.second Race.world fst snd].
      destruct (mongo_up w); [|exact I].
      now destruct (find_doc (has_id (userId p)) (mongo w)).
    + rewrite step_AwaitGetRefreshTokens in *.
      repeat split; try assumption. intros _.
      cbn [Race.first Race.second Race.world fst snd].
      destruct (mongo_up w); [|exact I].
      destruct (includes _ t); [|exact I].
      destruct (JwtUtil.generateAccessToken _ w) as [[a|e] w1]; [|exact I].
      now destruct (JwtUtil.generateRefreshToken _ w) as [[nt|e] w2].
    + rewrite step_AwaitRemoveRefreshToken in *. cbn in HA.
      destruct (mongo_up w); repeat split; try assumption.
      intros _. cbn [Race.first Race.second Race.world fst snd].
      rewrite HA. apply includes_tokens_after_pull.
    + rewrite step_AwaitAddRefreshToken in *. cbn in HA.
      destruct (mongo_up w); repeat split; try assumption.
      intros Hbefore.
      cbn [Race.first Race.second Race.world fst snd refreshToken].
      intros Hne.
      rewrite includes_tokens_after_push by exact Hne. now apply Hrem.
    + repeat split; assumption.
  - (* the second attempt is resumed *)
    pose proof (step_works_on_subject t pcB w HB) as HB'.
    pose proof (step_before_membership t pcB w) as Hmono.
    pose proof (step_reads_only t pcB w) as Hread.
    destruct (step t pcB w) as [pcB' w']. cbn [fst snd] in *.
    repeat split; try assumption. cbn.
    intros Hbefore. specialize (Hmono Hbefore).
    rewrite Hread by now left. now apply Hrem.
  - (* something happens around the two *)
    repeat split; try assumption. cbn. rewrite tokens_of_env_step.
    exact Hrem.
Qed.

Lemma race_inv_run (t : Token) (schedule : list Race.Action) :
  forall s, race_inv t s -> race_inv t (Race.run t t schedule s).
Proof.
  unfold Race.run.
  induction schedule as [|a schedule IH]; intros s Hinv; cbn [fold_left].
  - exact Hinv.
  - apply IH. now apply race_inv_act.
Qed.

Lemma refused_inv_act (t : Token) (a : Race.Action) (s : Race.State) :
  refused_inv t s -> refused_inv t (Race.act t t a s).
Proof.
  destruct s as [w pcA pcB]. intros (HA & HB & Hnot & Hdone & Hpast).
  cbn in HA, HB, Hnot, Hdone, Hpast.
  destruct a as [[|]|e]; cbn [Race.act Race.first Race.second Race.world].
  - destruct pcA as [|p|u|u at_ nt|u at_ nt|o]; try discriminate.
    + rewrite step_AwaitAddRefreshToken. cbn in Hdone.
      apply negb_true_iff, Token_eqb_neq in Hdone.
      destruct (mongo_up w); repeat split; try assumption.
      cbn [Race.world fst snd]. now rewrite includes_tokens_after_push.
    + rewrite step_Settled. repeat split; assumption.
  - pose proof (step_works_on_subject t pcB w HB) as HB'.
    pose proof (step_stops_at_membership t pcB w HB Hnot Hpast) as Hpast'.
    assert (Hread : snd (step t pcB w) = w).
    { destruct pcB as [|p|u|u at_ nt|u at_ nt|o]; try discriminate.
      1-3: now apply step_reads_only; left.
      now apply step_reads_only; right; exists o. }
    destruct (step t pcB w) as [pcB' w']. cbn [fst snd] in *. subst w'.
    repeat split; assumption.
  - repeat split; try assumption. cbn. now rewrite tokens_of_env_step.
Qed.

Lemma refused_inv_run (t : Token) (schedule : list Race.Action) :
  forall s, refused_inv t s -> refused_inv t (Race.run t t schedule s).
Proof.
  unfold Race.run.
  induction schedule as [|a schedule IH]; intros s Hinv; cbn [fold_left].
  - exact Hinv.
  - apply IH. now apply refused_inv_act.
Qed.

(** C1 (as amended). Two rotations of the same token [t] run on one
    server, resumed in any order, with the clock and the stores changing
    around them.  If by some moment the first has removed [t], the token it
    issued being another one, and the second has not read the refresh
    tokens yet, then the second never passes the membership check: it does
    not succeed, and whenever it reaches the check with MongoDB reachable
    it is rejected with "Refresh token not found or expired". *)
Theorem second_attempt_after_removal_is_refused
    (t : Token) (w : World) (before after : list Race.Action) :
  removed_for_another t
    (Race.first (Race.run t t before (Race.start w))) = true ->
  before_membership
    (Race.second (Race.run t t before (Race.start w))) = true ->
  past_membership
    (Race.second (Race.run t t (before ++ after) (Race.start w))) = false /\
  forall u,
    Race.second (Race.run t t (before ++ after) (Race.start w))
    = AwaitGetRefreshTokens u ->
    mongo_up (Race.world (Race.run t t (before ++ after) (Race.start w)))
    = true ->
    fst (step t (AwaitGetRefreshTokens u)
              (Race.world (Race.run t t (before ++ after) (Race.start w))))
    = Settled (Throw "Refresh token not found or expired").
Proof.
  intros Hremoved Hbefore.
  pose proof (race_inv_run t before _ (race_inv_start t w)) as Hinv.
  assert (Hrefused : refused_inv t (Race.run t t before (Race.start w))).
  { destruct (Race.run t t before (Race.start w)) as [ws pcA pcB].
    destruct Hinv as (HA & HB & Hrem).
    cbn [Race.first Race.second Race.world] in *.
    specialize (Hrem Hbefore).
    assert (Hpast : past_membership pcB = false) by now destruct pcB.
    destruct pcA as [|p|u|u at_ nt|u at_ nt|[response|e]]; try discriminate;
      cbn in Hremoved.
    - repeat split; assumption.
    - apply negb_true_iff, Token_eqb_neq in Hremoved.
      repeat split; try assumption. now apply Hrem. }
  unfold Race.run in *. rewrite fold_left_app.
  pose proof (refused_inv_run t after _ Hrefused)
    as (_ & HB' & Hnot & _ & Hpast).
  unfold Race.run in *. split; [exact Hpast|].
  intros u Hu Hup. rewrite step_AwaitGetRefreshTokens, Hup. cbn [fst].
  rewrite Hu in HB'. cbn in HB'. now rewrite HB', Hnot.
Qed.

(** C1, counterexample.  Two rotations of Alice's one refresh token are
    scheduled so that both read her refresh tokens before either removes
    the presented one.  Both pass the membership check and both succeed:
    the one token has become two registered sessions. *)
Lemma racing_rotations_both_succeed :
  succeeded (Race.first
               (Race.run (alice_refresh 1500) (alice_refresh 1500) racing
                  (Race.start (alice_world 2000 [alice_refresh 1500]))))
  = true /\
  succeeded (Race.second
               (Race.run (alice_refresh 1500) (alice_refresh 1500) racing
                  (Race.start (alice_world 2000 [alice_refresh 1500]))))
  = true /\
  tokens_of (Race.world
               (Race.run (alice_refresh 1500) (alice_refresh 1500) racing
                  (Race.start (alice_world 2000 [alice_refresh 1500]))))
            "1"
  = [alice_refresh 2000; alice_refresh 2001].
Proof. repeat split; vm_compute; reflexivity. Qed.

Lemma second_attempt_after_removal_is_refused_witness :
  succeeded (Race.first
               (Race.run (alice_refresh 1500) (alice_refresh 1500)
                  (first_removes ++ second_goes_on)
                  (Race.start (alice_world 2000 [alice_refresh 1500]))))
  = true /\
  past_membership
    (Race.second
       (Race.run (alice_refresh 1500) (alice_refresh 1500)
          (first_removes ++ second_goes_on)
          (Race.start (alice_world 2000 [alice_refresh 1500]))))
  = false /\
  failed_with "Refresh token not found or expired"
    (Race.second
       (Race.run (alice_refresh 1500) (alice_refresh 1500)
          (first_removes ++ second_goes_on)
          (Race.start (alice_world 2000 [alice_refresh 1500]))))
  = true.
Proof.
  split; [vm_compute; reflexivity|]. split; [|vm_compute; reflexivity].
  exact (proj1 (second_attempt_after_removal_is_refused
                  (alice_refresh 1500) (alice_world 2000 [alice_refresh 1500])
                  first_removes second_goes_on eq_refl eq_refl)).
Defined.

(** ** The blacklist under the traffic of the server *)

Section Respects.

Variable t : Token.
Variable e : Z.


















End Respects.














(** Every token [JwtUtil] signs carries an [exp] claim. *)
Lemma JwtUtil_tokens_carry_expiry (p : IAuthPayload) (w w' : World)
    (t : Token) :
  JwtUtil.generateAccessToken p w = (Ok t, w') \/
  JwtUtil.generateRefreshToken p w = (Ok t, w') ->
  carries_expiry t = true.
Proof.
  unfold JwtUtil.generateAccessToken, JwtUtil.generateRefreshToken, jwt_sign.
  intros [H|H]; revert H;
    (destruct (_ (env w)) as [key|]; [|discriminate]);
    (destruct (negb (truthy key)); [discriminate|]);
    (destruct (ms _); [|discriminate]);
    now intros [= <- _].
Qed.




(* ===================================================================== *)
(** * Further properties of the code *)
(* ===================================================================== *)

(** ** [JwtUtil]: issuing and verifying *)

Lemma jwt_sign_inv (p : IAuthPayload) (secret : option string)
    (expiresIn : string) (at_ : Z) (t : Token) :
  jwt_sign p secret expiresIn at_ = Ok t ->
  exists key span,
    secret = Some key /\ truthy key = true /\ ms expiresIn = Some span /\
    t = Signed (mkJwt key p at_ (Some (at_ + span / 1000))).
Proof.
  unfold jwt_sign. destruct secret as [key|]; [|discriminate].
  destruct (truthy key) eqn:Hk; [|discriminate]. cbn [negb].
  destruct (ms expiresIn) as [span|]; [|discriminate].
  intros [= <-]. exists key, span. auto.
Qed.

Lemma jwt_verify_own (key : string) (p : IAuthPayload) (iat exp at_ : Z) :
  truthy key = true ->
  jwt_verify (Signed (mkJwt key p iat (Some exp))) (Some key) at_
  = if at_ <? exp then Some p else None.
Proof.
  intros Hk. unfold jwt_verify. cbn [jwt_key jwt_exp jwt_claims].
  rewrite Hk, String.eqb_refl. cbn [andb].
  destruct (Z.leb_spec exp at_), (Z.ltb_spec at_ exp); try reflexivity; lia.
Qed.

Lemma jwt_verify_other_key (j : Jwt) (secret : option string) (at_ : Z) :
  secret <> Some (jwt_key j) -> jwt_verify (Signed j) secret at_ = None.
Proof.
  intros Hne. unfold jwt_verify. destruct secret as [key|]; [|reflexivity].
  cbv beta iota.
  destruct (String.eqb_spec (jwt_key j) key) as [E|_];
    [congruence|now rewrite andb_false_r].
Qed.

(** X1. A token [JwtUtil] has issued verifies, under the verifier of its own
    kind, with the payload it was issued for, at every second of its
    lifetime and at none from its expiry on.  The lifetime is the
    configured timespan in whole seconds. *)
Theorem issued_token_verifies_until_expiry
    (p : IAuthPayload) (w w' : World) (t : Token) :
  (JwtUtil.generateAccessToken p w = (Ok t, w') ->
   exists span,
     ms (env_or (JWT_EXPIRE (env w)) "7d") = Some span /\
     forall events,
       fst (JwtUtil.verifyAccessToken t (later events w))
       = Ok (if now (later events w) <? now w + span / 1000
             then Some p else None)) /\
  (JwtUtil.generateRefreshToken p w = (Ok t, w') ->
   exists span,
     ms (env_or (JWT_REFRESH_EXPIRE (env w)) "30d") = Some span /\
     forall events,
       fst (JwtUtil.verifyRefreshToken t (later events w))
       = Ok (if now (later events w) <? now w + span / 1000
             then Some p else None)).
Proof.
  unfold JwtUtil.generateAccessToken, JwtUtil.generateRefreshToken,
    JwtUtil.verifyAccessToken, JwtUtil.verifyRefreshToken.
  split; intros [= H _];
    apply jwt_sign_inv in H; destruct H as (key & span & Hs & Hk & Hms & ->);
    exists span; (split; [exact Hms|]); intros events; cbn [fst];
    destruct (later_keeps_stores events w) as (_ & _ & -> & _);
    rewrite Hs; now rewrite jwt_verify_own.
Qed.

Lemma issued_token_verifies_until_expiry_witness :
  fst (JwtUtil.verifyAccessToken (alice_access 2000)
         (later [Tick 604799] (alice_world 2000 []))) = Ok (Some alice_payload)
  /\
  fst (JwtUtil.verifyAccessToken (alice_access 2000)
         (later [Tick 604800] (alice_world 2000 []))) = Ok None.
Proof.
  destruct (issued_token_verifies_until_expiry alice_payload
              (alice_world 2000 []) (alice_world 2000 []) (alice_access 2000))
    as (Haccess & _).
  destruct (Haccess eq_refl) as (span & Hspan & Hverify).
  vm_compute in Hspan. injection Hspan as <-.
  split; [exact (Hverify [Tick 604799]) | exact (Hverify [Tick 604800])].
Defined.

(** X2. With different secrets for the two kinds, a refresh token is never
    accepted where an access token is expected, and an access token is
    never rotated: [authenticate] answers 401 to the first and the
    rotation throws on the second, at any time. *)
Theorem token_kinds_do_not_mix
    (p : IAuthPayload) (w w' : World) (t : Token) (events : list EnvAction) :
  JWT_SECRET (env w) <> JWT_REFRESH_SECRET (env w) ->
  (JwtUtil.generateRefreshToken p w = (Ok t, w') ->
   fst (JwtUtil.verifyAccessToken t (later events w)) = Ok None /\
   exists cause,
     fst (AuthMiddleware.authenticate (bearer_request t) (later events w))
     = Ok (Respond (plain 401 cause))) /\
  (JwtUtil.generateAccessToken p w = (Ok t, w') ->
   fst (JwtUtil.verifyRefreshToken t (later events w)) = Ok None /\
   exists e,
     fst (RefreshTokenUseCase.execute t (later events w)) = Throw e).
Proof.
  intros Hdiff.
  destruct (later_keeps_stores events w) as (_ & _ & Henv & _).
  unfold JwtUtil.generateAccessToken, JwtUtil.generateRefreshToken,
    JwtUtil.verifyAccessToken, JwtUtil.verifyRefreshToken.
  split; intros [= H _];
    apply jwt_sign_inv in H; destruct H as (key & span & Hs & Hk & Hms & ->).
  - assert (Hnone : jwt_verify
              (Signed (mkJwt key p (now w) (Some (now w + span / 1000))))
              (JWT_SECRET (env (later events w))) (now (later events w))
            = None).
    { apply jwt_verify_other_key. rewrite Henv. cbn [jwt_key]. congruence. }
    cbn [fst]. rewrite Hnone. split; [reflexivity|].
    destruct (isBlacklisted_total
                (Signed (mkJwt key p (now w) (Some (now w + span / 1000))))
                (later events w)) as (b & Hb).
    rewrite (authenticate_bearer _ _ b Hb), Hnone. cbn [fst].
    destruct b; eauto.
  - assert (Hnone : jwt_verify
              (Signed (mkJwt key p (now w) (Some (now w + span / 1000))))
              (JWT_REFRESH_SECRET (env (later events w)))
              (now (later events w))
            = None).
    { apply jwt_verify_other_key. rewrite Henv. cbn [jwt_key]. congruence. }
    cbn [fst]. rewrite Hnone. split; [reflexivity|].
    now apply rotate_rejects_unverified.
Qed.

Lemma token_kinds_do_not_mix_witness :
  (exists cause,
     fst (AuthMiddleware.authenticate (bearer_request (alice_refresh 2000))
            (later [Tick 5] (alice_world 2000 [alice_refresh 2000])))
     = Ok (Respond (plain 401 cause))) /\
  exists e,
    fst (RefreshTokenUseCase.execute (alice_access 2000)
           (later [Tick 5] (alice_world 2000 [alice_refresh 2000])))
    = Throw e.
Proof.
  destruct (token_kinds_do_not_mix alice_payload
              (alice_world 2000 [alice_refresh 2000])
              (alice_world 2000 [alice_refresh 2000])
              (alice_refresh 2000) [Tick 5]) as (Hrefresh & _);
    [discriminate|].
  destruct (token_kinds_do_not_mix alice_payload
              (alice_world 2000 [alice_refresh 2000])
              (alice_world 2000 [alice_refresh 2000])
              (alice_access 2000) [Tick 5]) as (_ & Haccess);
    [discriminate|].
  split; [exact (proj2 (Hrefresh eq_refl))|exact (proj2 (Haccess eq_refl))].
Defined.


(** ** The admin only route *)

Lemma blacklisted_in_with_collection (w : World) (docs : list UserDoc)
    (oid : N) (up : bool) (t : Token) :
  blacklisted_in (with_collection w docs oid up) t = blacklisted_in w t.
Proof.
  unfold blacklisted_in, TokenBlacklist.isBlacklisted,
    redisClient_get, try_catch, bind, ret, throw, with_collection.
  destruct (truthy_token t); cbn [negb]; [|reflexivity].
  cbn [redis redis_up clock fst snd]. unfold now. cbn [clock].
  destruct (redis_up w); [|reflexivity].
  destruct (redis_find (blacklist t) (Z.of_N (clock w)) (redis w));
    reflexivity.
Qed.

Lemma authenticate_cases (req : Request) (w : World) :
  AuthMiddleware.authenticate req w
  = (Ok match authorization req with
        | Some (Bearer t) =>
            if blacklisted_in w t
            then Respond (plain 401 "Token has been revoked")
            else match jwt_verify t (JWT_SECRET (env w)) (now w) with
                 | Some payload =>
                     Next (mkRequest (authorization req) (body req)
                                     (Some payload))
                 | None => Respond (plain 401 "Invalid or expired token")
                 end
        | _ => Respond (plain 401 "Missing or invalid authorization header")
        end, w).
Proof.
  unfold AuthMiddleware.authenticate, blacklisted_in.
  destruct (authorization req) as [[t|s]|]; try reflexivity.
  destruct (isBlacklisted_total t w) as (b & Hb).
  unfold try_catch, bind. rewrite Hb. cbn [fst].
  destruct b; [reflexivity|].
  unfold JwtUtil.verifyAccessToken.
  destruct (jwt_verify t (JWT_SECRET (env w)) (now w)); reflexivity.
Qed.

Lemma authenticate_identity (req : Request) (w : World) :
  match bearer_identity req w with
  | Some p =>
      AuthMiddleware.authenticate req w
      = (Ok (Next (mkRequest (authorization req) (body req) (Some p))), w)
  | None =>
      exists cause,
        AuthMiddleware.authenticate req w = (Ok (Respond (plain 401 cause)), w)
  end.
Proof.
  rewrite authenticate_cases. unfold bearer_identity.
  destruct (authorization req) as [[t|s]|]; eauto.
  destruct (blacklisted_in w t); eauto.
  destruct (jwt_verify t (JWT_SECRET (env w)) (now w)); eauto.
Qed.

Lemma GET_admin_users_cases (req : Request) (w : World) :
  GET_admin_users req w
  = (Ok match authorization req with
        | Some (Bearer t) =>
            if blacklisted_in w t
            then plain 401 "Token has been revoked"
            else match jwt_verify t (JWT_SECRET (env w)) (now w) with
                 | Some payload =>
                     match role payload with
                     | ADMIN => admin_only_answer
                     | _ => plain 403 "Forbidden: Insufficient permissions"
                     end
                 | None => plain 401 "Invalid or expired token"
                 end
        | _ => plain 401 "Missing or invalid authorization header"
        end, w).
Proof.
  unfold GET_admin_users, bind. rewrite authenticate_cases.
  destruct (authorization req) as [[t|s]|]; try reflexivity.
  destruct (blacklisted_in w t); [reflexivity|].
  destruct (jwt_verify t (JWT_SECRET (env w)) (now w)) as [payload|];
    [|reflexivity].
  unfold AuthMiddleware.authorize. cbn [req_user existsb].
  destruct (role payload); reflexivity.
Qed.

(** X3. [GET /admin/users] answers 200 exactly to a request whose bearer token
    is not blacklisted, verifies as an access token and carries the role
    admin; a token with another role is answered 403 and every other
    request 401.  The route changes nothing. *)
Theorem admin_route_admits_admin_tokens_only (req : Request) (w : World) :
  exists res,
    GET_admin_users req w = (Ok res, w) /\
    match bearer_identity req w with
    | Some p =>
        match role p with
        | ADMIN => res = admin_only_answer
        | _ => res = plain 403 "Forbidden: Insufficient permissions"
        end
    | None => exists cause, res = plain 401 cause
    end.
Proof.
  rewrite GET_admin_users_cases. eexists. split; [reflexivity|].
  unfold bearer_identity.
  destruct (authorization req) as [[t|s]|]; eauto.
  destruct (blacklisted_in w t); eauto.
  destruct (jwt_verify t (JWT_SECRET (env w)) (now w)) as [payload|]; eauto.
  destruct (role payload); reflexivity.
Qed.

Lemma authenticate_ignores_collection (req : Request) (w : World)
    (docs : list UserDoc) (oid : N) (up : bool) :
  fst (AuthMiddleware.authenticate req (with_collection w docs oid up))
  = fst (AuthMiddleware.authenticate req w).
Proof.
  rewrite !authenticate_cases. cbn [fst].
  destruct (authorization req) as [[t|s]|]; try reflexivity.
  now rewrite blacklisted_in_with_collection.
Qed.

(** X4. Neither [authenticate] nor the admin only route consults the user
    collection: the answer is the same whatever the collection holds and
    whether or not MongoDB is reachable, so the role in the token decides,
    not the role stored for the user now. *)
Theorem admission_ignores_user_collection (req : Request) (w : World)
    (docs : list UserDoc) (oid : N) (up : bool) :
  fst (AuthMiddleware.authenticate req (with_collection w docs oid up))
  = fst (AuthMiddleware.authenticate req w) /\
  fst (GET_admin_users req (with_collection w docs oid up))
  = fst (GET_admin_users req w).
Proof.
  split; [apply authenticate_ignores_collection|].
  unfold GET_admin_users, bind. rewrite !authenticate_cases.
  destruct (authorization req) as [[t|s]|]; try reflexivity.
  rewrite blacklisted_in_with_collection.
  change (now (with_collection w docs oid up)) with (now w).
  change (env (with_collection w docs oid up)) with (env w).
  destruct (blacklisted_in w t); [reflexivity|].
  destruct (jwt_verify t (JWT_SECRET (env w)) (now w)) as [payload|];
    [|reflexivity].
  destruct (AuthMiddleware.authorize [ADMIN] _); reflexivity.
Qed.

(** ** The refresh tokens of a user in [MongoUserRepository] *)

Lemma update_first_absent (p : UserDoc -> bool) (f : UserDoc -> UserDoc)
    (docs : list UserDoc) :
  find_doc p docs = None -> update_first p f docs = docs.
Proof.
  induction docs as [|d rest IH]; [reflexivity|]. cbn [find_doc update_first].
  destruct (p d); [discriminate|]. intros H. now rewrite IH.
Qed.

Lemma pull_absent (t : Token) (l : list Token) :
  includes l t = false -> pull t l = l.
Proof.
  unfold includes, pull. induction l as [|x l IH]; [reflexivity|].
  cbn [existsb filter]. destruct (Token_eqb x t); [discriminate|].
  cbn [orb negb]. intros H. now rewrite IH.
Qed.

Lemma pull_push_absent (t : Token) (l : list Token) :
  includes l t = false -> pull t (push t l) = l.
Proof.
  intros H. unfold pull, push. rewrite filter_app. cbn [filter].
  rewrite Token_eqb_refl. cbn [negb]. rewrite app_nil_r.
  now apply pull_absent.
Qed.

Lemma getRefreshTokens_reachable (id : string) (w : World) :
  mongo_up w = true ->
  MongoUserRepository.getRefreshTokens id w = (Ok (tokens_of w id), w).
Proof.
  intros Hup. unfold MongoUserRepository.getRefreshTokens, mongo_call,
    tokens_of.
  rewrite Hup. destruct (find_doc (has_id id) (mongo w)); reflexivity.
Qed.

Lemma tokens_of_update_any (w : World) (id id' : string) (at_ : Z)
    (f : list Token -> list Token) :
  tokens_of (set_mongo w (update_first (has_id id') (with_tokens at_ f)
                                        (mongo w))) id
  = if String.eqb id id'
    then match find_doc (has_id id) (mongo w) with
         | Some d => f (doc_refreshTokens d)
         | None => []
         end
    else tokens_of w id.
Proof.
  destruct (String.eqb_spec id id') as [<-|Hne].
  - unfold tokens_of, set_mongo. cbn [mongo].
    rewrite find_doc_update_same.
    destruct (find_doc (has_id id) (mongo w)); reflexivity.
  - now apply tokens_of_update_elsewhere.
Qed.

(** X5. While MongoDB is reachable: [addRefreshToken] appends the token to the
    list [getRefreshTokens] reads for that user and [removeRefreshToken]
    takes every copy of it out; both report success and store nothing for
    an id that no user has; the lists of the other users stay as they are;
    and removing a token that was added, and was not registered before,
    gives the list back. *)
Theorem refresh_token_registry_round_trip (w : World) (id other : string)
    (t : Token) :
  mongo_up w = true ->
  fst (MongoUserRepository.addRefreshToken id t w) = Ok tt /\
  fst (MongoUserRepository.removeRefreshToken id t w) = Ok tt /\
  fst (MongoUserRepository.getRefreshTokens id
         (snd (MongoUserRepository.addRefreshToken id t w)))
  = Ok match find_doc (has_id id) (mongo w) with
       | Some d => push t (doc_refreshTokens d)
       | None => []
       end /\
  fst (MongoUserRepository.getRefreshTokens id
         (snd (MongoUserRepository.removeRefreshToken id t w)))
  = Ok (pull t (tokens_of w id)) /\
  (other <> id ->
   fst (MongoUserRepository.getRefreshTokens other
          (snd (MongoUserRepository.addRefreshToken id t w)))
   = Ok (tokens_of w other) /\
   fst (MongoUserRepository.getRefreshTokens other
          (snd (MongoUserRepository.removeRefreshToken id t w)))
   = Ok (tokens_of w other)) /\
  (includes (tokens_of w id) t = false ->
   fst (MongoUserRepository.getRefreshTokens id
          (snd (MongoUserRepository.removeRefreshToken id t
                  (snd (MongoUserRepository.addRefreshToken id t w)))))
   = Ok (tokens_of w id)).
Proof.
  intros Hup.
  unfold MongoUserRepository.addRefreshToken,
    MongoUserRepository.removeRefreshToken, mongo_call.
  rewrite Hup. cbn [fst snd].
  assert (Hup' : forall docs, mongo_up (set_mongo w docs) = true)
    by (intros docs; exact Hup).
  rewrite Hup'. cbn [fst snd].
  rewrite !getRefreshTokens_reachable by (apply Hup' || exact Hup).
  cbn [fst].
  rewrite !tokens_of_update_any, String.eqb_refl.
  split; [reflexivity|]. split; [reflexivity|]. split; [reflexivity|].
  split.
  { unfold tokens_of. destruct (find_doc (has_id id) (mongo w));
      reflexivity. }
  split.
  { intros Hne. apply String.eqb_neq in Hne. rewrite Hne. now split. }
  intros Habsent.
  f_equal. unfold set_mongo. cbn [mongo].
  rewrite find_doc_update_same. unfold tokens_of in *.
  destruct (find_doc (has_id id) (mongo w)) as [d|]; [|reflexivity].
  cbn [option_map with_tokens doc_refreshTokens].
  now apply pull_push_absent.
Qed.

Lemma refresh_token_registry_round_trip_witness :
  fst (MongoUserRepository.getRefreshTokens "1"
         (snd (MongoUserRepository.addRefreshToken "1" (alice_refresh 1000)
                 (alice_world 1000 []))))
  = Ok [alice_refresh 1000] /\
  fst (MongoUserRepository.getRefreshTokens "2"
         (snd (MongoUserRepository.addRefreshToken "2" (alice_refresh 1000)
                 (alice_world 1000 []))))
  = Ok [].
Proof.
  split.
  - exact (proj1 (proj2 (proj2
      (refresh_token_registry_round_trip (alice_world 1000 []) "1" "2"
         (alice_refresh 1000) eq_refl)))).
  - exact (proj1 (proj2 (proj2
      (refresh_token_registry_round_trip (alice_world 1000 []) "2" "1"
         (alice_refresh 1000) eq_refl)))).
Defined.

(** ** What a rotation answers *)

Lemma find_doc_has_id_again (id : string) (docs : list UserDoc)
    (d : UserDoc) :
  find_doc (has_id id) docs = Some d ->
  find_doc (has_id (doc_id d)) docs = Some d.
Proof.
  intros H. now rewrite (find_doc_has_id id docs d H).
Qed.

(** The outcome of [execute], check by check. *)
Lemma rotate_outcome (t : Token) (w : World) :
  fst (RefreshTokenUseCase.execute t w)
  = if blacklisted_in w t then Throw "Refresh token is revoked" else
    match jwt_verify t (JWT_REFRESH_SECRET (env w)) (now w) with
    | None => Throw "Invalid refresh token"
    | Some p =>
        if mongo_up w then
          match find_doc (has_id (userId p)) (mongo w) with
          | None => Throw "User not found"
          | Some d =>
              if includes (doc_refreshTokens d) t then
                match jwt_sign (payload_of_doc d) (JWT_SECRET (env w))
                        (env_or (JWT_EXPIRE (env w)) "7d") (now w) with
                | Throw e => Throw e
                | Ok access =>
                    match jwt_sign (payload_of_doc d)
                            (JWT_REFRESH_SECRET (env w))
                            (env_or (JWT_REFRESH_EXPIRE (env w)) "30d")
                            (now w) with
                    | Throw e => Throw e
                    | Ok refresh =>
                        Ok (mkAuthResponse access refresh (summary_of_doc d))
                    end
                end
              else Throw "Refresh token not found or expired"
          end
        else Throw mongo_unreachable
    end.
Proof.
  unfold RefreshTokenUseCase.execute, blacklisted_in.
  unfold bind at 1.
  destruct (isBlacklisted_total t w) as (b & ->). cbn [fst].
  destruct b; [reflexivity|].
  unfold bind at 1, JwtUtil.verifyRefreshToken.
  destruct (jwt_verify t _ _) as [p|]; [|reflexivity].
  unfold bind at 1, MongoUserRepository.findById, mongo_call.
  destruct (mongo_up w) eqn:Hup; [|reflexivity].
  destruct (find_doc (has_id (userId p)) (mongo w)) as [d|] eqn:Hd;
    [|reflexivity].
  unfold bind at 1, MongoUserRepository.getRefreshTokens, mongo_call.
  rewrite Hup. cbn [MongoUserRepository.toDomain _id bang].
  rewrite (find_doc_has_id_again _ _ _ Hd).
  destruct (includes (doc_refreshTokens d) t); [|reflexivity]. cbn [negb].
  unfold bind at 1. unfold JwtUtil.generateAccessToken at 1.
  change (payload_of (mkUser (Some (doc_id d)) (doc_email d) (doc_password d)
            (doc_name d) (doc_role d) (doc_isActive d) (doc_refreshTokens d)
            (Some (doc_createdAt d)) (Some (doc_updatedAt d))))
    with (payload_of_doc d).
  destruct (jwt_sign _ (JWT_SECRET (env w)) _ _) as [access|]; [|reflexivity].
  unfold bind at 1. unfold JwtUtil.generateRefreshToken at 1.
  destruct (jwt_sign _ (JWT_REFRESH_SECRET (env w)) _ _) as [refresh|];
    [|reflexivity].
  unfold bind, MongoUserRepository.removeRefreshToken,
    MongoUserRepository.addRefreshToken, mongo_call, ret.
  rewrite Hup. cbn [set_mongo mongo_up]. rewrite Hup. reflexivity.
Qed.

(** X6. The pair a rotation returns is issued for the user as the collection
    holds it at the rotation: both tokens are signed over the stored id,
    email and role, and the summary shows the stored name.  The email and
    the role in the presented token play no part. *)
Theorem rotation_issues_tokens_for_the_stored_user (t : Token) (w : World)
    (response : IAuthResponse) :
  fst (RefreshTokenUseCase.execute t w) = Ok response ->
  exists p d,
    jwt_verify t (JWT_REFRESH_SECRET (env w)) (now w) = Some p /\
    find_doc (has_id (userId p)) (mongo w) = Some d /\
    fst (JwtUtil.generateAccessToken
           (mkPayload (doc_id d) (doc_email d) (doc_role d)) w)
    = Ok (accessToken response) /\
    fst (JwtUtil.generateRefreshToken
           (mkPayload (doc_id d) (doc_email d) (doc_role d)) w)
    = Ok (refreshToken response) /\
    user response
    = mkSummary (doc_id d) (doc_email d) (doc_name d) (doc_role d).
Proof.
  rewrite rotate_outcome.
  destruct (blacklisted_in w t); [discriminate|].
  destruct (jwt_verify t _ _) as [p|] eqn:Hp; [|discriminate].
  destruct (mongo_up w); [|discriminate].
  destruct (find_doc (has_id (userId p)) (mongo w)) as [d|] eqn:Hd;
    [|discriminate].
  destruct (includes (doc_refreshTokens d) t); [|discriminate].
  unfold JwtUtil.generateAccessToken, JwtUtil.generateRefreshToken.
  cbn [fst].
  change (mkPayload (doc_id d) (doc_email d) (doc_role d))
    with (payload_of_doc d).
  destruct (jwt_sign _ (JWT_SECRET (env w)) _ _) as [access|] eqn:Ha;
    [|discriminate].
  destruct (jwt_sign _ (JWT_REFRESH_SECRET (env w)) _ _) as [refresh|] eqn:Hr;
    [|discriminate].
  intros [= <-]. exists p, d. auto.
Qed.

Lemma rotation_issues_tokens_for_the_stored_user_witness :
  exists p d,
    jwt_verify (alice_refresh 1000) (JWT_REFRESH_SECRET example_env) 2000
    = Some p /\
    find_doc (has_id (userId p)) [alice_doc (example_hash "pw")
                                           [alice_refresh 1000]] = Some d /\
    fst (JwtUtil.generateAccessToken
           (mkPayload (doc_id d) (doc_email d) (doc_role d))
           (alice_world 2000 [alice_refresh 1000]))
    = Ok (alice_access 2000) /\
    fst (JwtUtil.generateRefreshToken
           (mkPayload (doc_id d) (doc_email d) (doc_role d))
           (alice_world 2000 [alice_refresh 1000]))
    = Ok (alice_refresh 2000) /\
    summary_of_doc (alice_doc (example_hash "pw") [alice_refresh 1000])
    = mkSummary (doc_id d) (doc_email d) (doc_name d) (doc_role d).
Proof.
  exact (rotation_issues_tokens_for_the_stored_user (alice_refresh 1000)
           (alice_world 2000 [alice_refresh 1000])
           (mkAuthResponse (alice_access 2000) (alice_refresh 2000)
              (summary_of_doc (alice_doc (example_hash "pw")
                                 [alice_refresh 1000])))
           eq_refl).
Defined.

Lemma find_doc_has_id_map (g : UserDoc -> UserDoc) (id : string)
    (docs : list UserDoc) :
  (forall d, doc_id (g d) = doc_id d) ->
  find_doc (has_id id) (map g docs)
  = option_map g (find_doc (has_id id) docs).
Proof.
  intros Hg. induction docs as [|d rest IH]; [reflexivity|].
  cbn [map find_doc]. unfold has_id at 1 3. rewrite Hg.
  destruct (String.eqb (doc_id d) id); [reflexivity|exact IH].
Qed.

(** X7. A rotation never looks at [isActive]: its outcome is the same whatever
    the flags of the users are, so a user whose account was deactivated
    still rotates a registered refresh token into a new pair. *)
Theorem rotation_ignores_account_status (t : Token) (w : World)
    (active : UserDoc -> bool) :
  fst (RefreshTokenUseCase.execute t
         (set_mongo w (map (with_isActive active) (mongo w))))
  = fst (RefreshTokenUseCase.execute t w).
Proof.
  rewrite !rotate_outcome.
  change (set_mongo w (map (with_isActive active) (mongo w)))
    with (with_collection w (map (with_isActive active) (mongo w))
            (next_oid w) (mongo_up w)).
  rewrite blacklisted_in_with_collection.
  unfold with_collection, now. cbn [env clock mongo mongo_up].
  destruct (blacklisted_in w t); [reflexivity|].
  destruct (jwt_verify t _ _) as [p|]; [|reflexivity].
  destruct (mongo_up w); [|reflexivity].
  rewrite find_doc_has_id_map by reflexivity.
  destruct (find_doc (has_id (userId p)) (mongo w)) as [d|]; reflexivity.
Qed.

(** ** Login *)

Section Login.

Variable comparePasswords : string -> string -> bool.

(** The outcome of [LoginUseCase.execute], check by check. *)
Lemma login_outcome (email password : string) (w : World) :
  LoginUseCase_execute comparePasswords email password w
  = if mongo_up w then
      match find_doc (has_email email) (mongo w) with
      | None => (Throw "Invalid email or password", w)
      | Some d =>
          if doc_isActive d then
            if comparePasswords password (doc_password d) then
              match jwt_sign (payload_of_doc d) (JWT_SECRET (env w))
                      (env_or (JWT_EXPIRE (env w)) "7d") (now w) with
              | Throw e => (Throw e, w)
              | Ok access =>
                  match jwt_sign (payload_of_doc d)
                          (JWT_REFRESH_SECRET (env w))
                          (env_or (JWT_REFRESH_EXPIRE (env w)) "30d")
                          (now w) with
                  | Throw e => (Throw e, w)
                  | Ok refresh =>
                      (Ok (mkAuthResponse access refresh (summary_of_doc d)),
                       set_mongo w
                         (update_first (has_id (doc_id d))
                            (with_tokens (now w) (push refresh)) (mongo w)))
                  end
              end
            else (Throw "Invalid email or password", w)
          else (Throw "User account is not active", w)
      end
    else (Throw mongo_unreachable, w).
Proof.
  unfold LoginUseCase_execute.
  unfold bind at 1, MongoUserRepository.findByEmail, mongo_call.
  destruct (mongo_up w) eqn:Hup; [|reflexivity].
  change (fun d : UserDoc =>
            String.eqb (doc_email d) (schema_email (toLowerCase email)))
    with (has_email email).
  destruct (find_doc (has_email email) (mongo w)) as [d|]; [|reflexivity].
  cbn [MongoUserRepository.toDomain isActive user_password _id bang].
  destruct (doc_isActive d); [|reflexivity]. cbn [negb].
  destruct (comparePasswords password (doc_password d)); [|reflexivity].
  cbn [negb].
  change (payload_of (mkUser (Some (doc_id d)) (doc_email d) (doc_password d)
            (doc_name d) (doc_role d) true (doc_refreshTokens d)
            (Some (doc_createdAt d)) (Some (doc_updatedAt d))))
    with (payload_of_doc d).
  unfold bind at 1. unfold JwtUtil.generateAccessToken at 1.
  destruct (jwt_sign _ (JWT_SECRET (env w)) _ _) as [access|]; [|reflexivity].
  unfold bind at 1. unfold JwtUtil.generateRefreshToken at 1.
  destruct (jwt_sign _ (JWT_REFRESH_SECRET (env w)) _ _) as [refresh|];
    [|reflexivity].
  unfold bind, MongoUserRepository.addRefreshToken, mongo_call, ret.
  rewrite Hup. reflexivity.
Qed.

End Login.

Lemma find_doc_In (p : UserDoc -> bool) (docs : list UserDoc) (d : UserDoc) :
  find_doc p docs = Some d -> In d docs /\ p d = true.
Proof.
  induction docs as [|x rest IH]; [discriminate|]. cbn [find_doc].
  destruct (p x) eqn:Hp.
  - intros [= <-]. split; [now left|exact Hp].
  - intros H. destruct (IH H) as (Hin & Hd). split; [now right|exact Hd].
Qed.

Lemma In_find_doc (p : UserDoc -> bool) (docs : list UserDoc) (d : UserDoc) :
  In d docs -> p d = true -> find_doc p docs <> None.
Proof.
  induction docs as [|x rest IH]; [contradiction|]. cbn [find_doc In].
  intros [->|Hin] Hp; [now rewrite Hp|].
  destruct (p x); [discriminate|now apply IH].
Qed.

Lemma find_doc_own_id (p : UserDoc -> bool) (docs : list UserDoc)
    (d : UserDoc) :
  find_doc p docs = Some d -> find_doc (has_id (doc_id d)) docs <> None.
Proof.
  intros H. apply (In_find_doc _ _ d); [apply (find_doc_In p), H|].
  apply String.eqb_refl.
Qed.

Lemma jwt_sign_configured (p : IAuthPayload) (secret : option string)
    (expiresIn : string) (at_ : Z) :
  truthy_opt secret = true -> ms expiresIn <> None ->
  exists t, jwt_sign p secret expiresIn at_ = Ok t.
Proof.
  unfold jwt_sign. destruct secret as [key|]; [|discriminate].
  cbn [truthy_opt]. intros -> Hms. cbn [negb].
  destruct (ms expiresIn); [eauto|congruence].
Qed.

Lemma issuance_configured_signs (p : IAuthPayload) (w : World) :
  issuance_configured w = true ->
  (exists t, jwt_sign p (JWT_SECRET (env w))
               (env_or (JWT_EXPIRE (env w)) "7d") (now w) = Ok t) /\
  (exists t, jwt_sign p (JWT_REFRESH_SECRET (env w))
               (env_or (JWT_REFRESH_EXPIRE (env w)) "30d") (now w) = Ok t).
Proof.
  unfold issuance_configured. rewrite !andb_true_iff.
  intros (((Hs & Hr) & Hms) & Hmr).
  split; apply jwt_sign_configured; try assumption.
  - destruct (ms (env_or (JWT_EXPIRE (env w)) "7d")); congruence.
  - destruct (ms (env_or (JWT_REFRESH_EXPIRE (env w)) "30d")); congruence.
Qed.

(** X8. A login that returns was made with the password of an active user
    found by the email; the response shows that user, both tokens are
    issued for the stored id, email and role, and the refresh token is
    appended to the user's list.  The tokens registered before stay
    registered, the lists of the other users and the revocation cache are
    as they were. *)
Theorem login_appends_one_session
    (comparePasswords : string -> string -> bool) (email password : string)
    (w w' : World) (response : IAuthResponse) :
  LoginUseCase_execute comparePasswords email password w
  = (Ok response, w') ->
  exists d,
    find_doc (has_email email) (mongo w) = Some d /\
    doc_isActive d = true /\
    comparePasswords password (doc_password d) = true /\
    user response
    = mkSummary (doc_id d) (doc_email d) (doc_name d) (doc_role d) /\
    fst (JwtUtil.generateAccessToken
           (mkPayload (doc_id d) (doc_email d) (doc_role d)) w)
    = Ok (accessToken response) /\
    fst (JwtUtil.generateRefreshToken
           (mkPayload (doc_id d) (doc_email d) (doc_role d)) w)
    = Ok (refreshToken response) /\
    tokens_of w' (doc_id d)
    = push (refreshToken response) (tokens_of w (doc_id d)) /\
    (forall other, other <> doc_id d ->
                   tokens_of w' other = tokens_of w other) /\
    redis w' = redis w.
Proof.
  rewrite login_outcome.
  destruct (mongo_up w); [|discriminate].
  destruct (find_doc (has_email email) (mongo w)) as [d|] eqn:Hd;
    [|discriminate].
  destruct (doc_isActive d) eqn:Hactive; [|discriminate].
  destruct (comparePasswords password (doc_password d)) eqn:Hpw;
    [|discriminate].
  unfold JwtUtil.generateAccessToken, JwtUtil.generateRefreshToken.
  cbn [fst].
  change (mkPayload (doc_id d) (doc_email d) (doc_role d))
    with (payload_of_doc d).
  destruct (jwt_sign _ (JWT_SECRET (env w)) _ _) as [access|] eqn:Ha;
    [|discriminate].
  destruct (jwt_sign _ (JWT_REFRESH_SECRET (env w)) _ _) as [refresh|] eqn:Hr;
    [|discriminate].
  intros [= <- <-]. exists d. cbn [user refreshToken accessToken].
  split; [reflexivity|]. split; [exact Hactive|]. split; [exact Hpw|].
  split; [reflexivity|]. split; [exact Ha|]. split; [exact Hr|].
  split; [|split; [|reflexivity]].
  - apply tokens_of_update_found. exact (find_doc_own_id _ _ _ Hd).
  - intros other Hne. now apply tokens_of_update_elsewhere.
Qed.

Lemma login_appends_one_session_witness :
  exists d,
    find_doc (has_email "Alice@X.com")
             (mongo (alice_world 2000 [alice_refresh 1000])) = Some d /\
    tokens_of (snd (LoginUseCase_execute example_compare "Alice@X.com" "pw"
                      (alice_world 2000 [alice_refresh 1000]))) (doc_id d)
    = [alice_refresh 1000; alice_refresh 2000].
Proof.
  destruct (login_appends_one_session example_compare "Alice@X.com" "pw"
              (alice_world 2000 [alice_refresh 1000])
              (snd (LoginUseCase_execute example_compare "Alice@X.com" "pw"
                      (alice_world 2000 [alice_refresh 1000])))
              (mkAuthResponse (alice_access 2000) (alice_refresh 2000)
                 (mkSummary "1" "alice@x.com" "Alice" USER))
              eq_refl)
    as (d & Hd & _ & _ & _ & _ & _ & Htokens & _).
  exists d. split; [exact Hd|]. rewrite Htokens.
  vm_compute in Hd. injection Hd as <-. reflexivity.
Defined.

(** X9. A login that throws changes nothing.  With MongoDB reachable and the
    token issuance configured it names one of two causes: an account that
    is not active is named whatever the password is, while an unknown
    email and a wrong password give the same message. *)
Theorem failed_login_changes_nothing_and_names_two_causes
    (comparePasswords : string -> string -> bool) (email password : string)
    (w : World) (e : string) :
  fst (LoginUseCase_execute comparePasswords email password w) = Throw e ->
  snd (LoginUseCase_execute comparePasswords email password w) = w /\
  (mongo_up w = true -> issuance_configured w = true ->
   match find_doc (has_email email) (mongo w) with
   | Some d =>
       if doc_isActive d
       then comparePasswords password (doc_password d) = false /\
            e = "Invalid email or password"
       else e = "User account is not active"
   | None => e = "Invalid email or password"
   end).
Proof.
  rewrite login_outcome.
  destruct (mongo_up w); [|now intros [= <-]].
  destruct (find_doc (has_email email) (mongo w)) as [d|];
    [|now intros [= <-]].
  destruct (doc_isActive d); [|now intros [= <-]].
  destruct (comparePasswords password (doc_password d));
    [|now intros [= <-]].
  destruct (jwt_sign _ (JWT_SECRET (env w)) _ _) as [access|] eqn:Ha.
  - destruct (jwt_sign _ (JWT_REFRESH_SECRET (env w)) _ _) as [refresh|] eqn:Hr;
      [discriminate|].
    intros _. split; [reflexivity|]. intros _ Hconf.
    destruct (issuance_configured_signs (payload_of_doc d) w Hconf)
      as (_ & (t & Ht)). congruence.
  - intros _. split; [reflexivity|]. intros _ Hconf.
    destruct (issuance_configured_signs (payload_of_doc d) w Hconf)
      as ((t & Ht) & _). congruence.
Qed.

Lemma failed_login_changes_nothing_and_names_two_causes_witness :
  (snd (LoginUseCase_execute example_compare "bob@x.com" "pw"
          (alice_world 1000 [])) = alice_world 1000 [] /\
   "Invalid email or password" = "Invalid email or password") /\
  (snd (LoginUseCase_execute example_compare "alice@x.com" "guess"
          (alice_world 1000 [])) = alice_world 1000 [] /\
   example_compare "guess" (example_hash "pw") = false /\
   "Invalid email or password" = "Invalid email or password") /\
  (snd (LoginUseCase_execute example_compare "alice@x.com" "guess"
          alice_world_inactive) = alice_world_inactive /\
   "User account is not active" = "User account is not active").
Proof.
  split; [|split].
  - destruct (failed_login_changes_nothing_and_names_two_causes
                example_compare "bob@x.com" "pw" (alice_world 1000 [])
                "Invalid email or password" eq_refl) as (Hw & He).
    split; [exact Hw|exact (He eq_refl eq_refl)].
  - destruct (failed_login_changes_nothing_and_names_two_causes
                example_compare "alice@x.com" "guess" (alice_world 1000 [])
                "Invalid email or password" eq_refl) as (Hw & He).
    split; [exact Hw|exact (He eq_refl eq_refl)].
  - destruct (failed_login_changes_nothing_and_names_two_causes
                example_compare "alice@x.com" "guess" alice_world_inactive
                "User account is not active" eq_refl) as (Hw & He).
    split; [exact Hw|exact (He eq_refl eq_refl)].
Defined.

(** ** Registration *)

(** The outcome of [RegisterUseCase.execute], check by check. *)
Lemma register_outcome (hashPassword : string -> string)
    (email password name : string) (w : World) :
  RegisterUseCase_execute hashPassword email password name w
  = if mongo_up w then
      match find_doc (has_email email) (mongo w) with
      | Some _ => (Throw "User already exists with this email", w)
      | None =>
          if truthy (schema_email (toLowerCase email))
             && truthy (hashPassword password) && truthy name
          then (Ok (MongoUserRepository.toDomain
                      (registered_doc hashPassword email password name w)),
                with_new_doc w
                  (registered_doc hashPassword email password name w))
          else (Throw "User validation failed", w)
      end
    else (Throw mongo_unreachable, w).
Proof.
  unfold RegisterUseCase_execute, bind, MongoUserRepository.findByEmail,
    MongoUserRepository.create, mongo_call, throw.
  destruct (mongo_up w) eqn:Hup; [|reflexivity].
  change (fun d : UserDoc =>
            String.eqb (doc_email d) (schema_email (toLowerCase email)))
    with (has_email email).
  destruct (find_doc (has_email email) (mongo w)) eqn:Hfind; [reflexivity|].
  rewrite Hup.
  cbn [user_email user_password user_name user_role isActive doc_email
       doc_password doc_name].
  destruct (truthy (schema_email (toLowerCase email))
            && truthy (hashPassword password) && truthy name);
    [|reflexivity].
  cbn [negb].
  change (fun d : UserDoc =>
            String.eqb (doc_email d) (schema_email (toLowerCase email)))
    with (has_email email).
  rewrite Hfind. unfold with_new_doc, registered_doc. rewrite Hup.
  reflexivity.
Qed.

Lemma find_doc_app_absent (p : UserDoc -> bool) (docs : list UserDoc)
    (d : UserDoc) :
  find_doc p docs = None -> p d = true ->
  find_doc p (docs ++ [d])%list = Some d.
Proof.
  induction docs as [|x rest IH]; cbn [app find_doc].
  - now intros _ ->.
  - destruct (p x); [discriminate|exact IH].
Qed.

Lemma has_email_same (email email' : string) :
  schema_email (toLowerCase email') = schema_email (toLowerCase email) ->
  has_email email' = has_email email.
Proof. unfold has_email. now intros ->. Qed.

Lemma register_success_inv (hashPassword : string -> string)
    (email password name : string) (w w1 : World) (u : IUser) :
  RegisterUseCase_execute hashPassword email password name w = (Ok u, w1) ->
  find_doc (has_email email) (mongo w) = None /\
  u = MongoUserRepository.toDomain
        (registered_doc hashPassword email password name w) /\
  w1 = with_new_doc w (registered_doc hashPassword email password name w).
Proof.
  rewrite register_outcome.
  destruct (mongo_up w); [|discriminate].
  destruct (find_doc (has_email email) (mongo w)); [discriminate|].
  destruct (_ && _); [|discriminate].
  intros [= <- <-]. auto.
Qed.

Lemma find_registered (hashPassword : string -> string)
    (email password name email' : string) (w w1 : World) (u : IUser)
    (events : list EnvAction) :
  RegisterUseCase_execute hashPassword email password name w = (Ok u, w1) ->
  schema_email (toLowerCase email') = schema_email (toLowerCase email) ->
  find_doc (has_email email') (mongo (later events w1))
  = Some (registered_doc hashPassword email password name w).
Proof.
  intros Hreg Hsame. apply register_success_inv in Hreg.
  destruct Hreg as (Hnone & _ & ->).
  destruct (later_keeps_stores events
              (with_new_doc w
                 (registered_doc hashPassword email password name w)))
    as (-> & _).
  rewrite (has_email_same _ _ Hsame). cbn [with_new_doc mongo].
  apply find_doc_app_absent; [exact Hnone|].
  apply String.eqb_refl.
Qed.

(** X10. Once a registration has returned, the email is taken: while MongoDB is
    reachable, every later registration under that email, in any letter
    case and with white space around it, throws and changes nothing. *)
Theorem registered_email_is_taken (hashPassword : string -> string)
    (email password name email' password' name' : string) (w w1 : World)
    (u : IUser) (events : list EnvAction) :
  RegisterUseCase_execute hashPassword email password name w = (Ok u, w1) ->
  schema_email (toLowerCase email') = schema_email (toLowerCase email) ->
  mongo_up (later events w1) = true ->
  RegisterUseCase_execute hashPassword email' password' name'
                          (later events w1)
  = (Throw "User already exists with this email", later events w1).
Proof.
  intros Hreg Hsame Hup. rewrite register_outcome, Hup.
  now rewrite (find_registered _ _ _ _ _ _ _ _ events Hreg Hsame).
Qed.

Lemma registered_email_is_taken_witness :
  RegisterUseCase_execute example_hash "ALICE@x.com" "other" "Mallory"
    (later [Tick 50]
       (snd (RegisterUseCase_execute example_hash "Alice@X.com " "pw" "Alice"
               empty_world)))
  = (Throw "User already exists with this email",
     later [Tick 50]
       (snd (RegisterUseCase_execute example_hash "Alice@X.com " "pw" "Alice"
               empty_world))).
Proof.
  apply (registered_email_is_taken example_hash "Alice@X.com " "pw" "Alice"
           "ALICE@x.com" "other" "Mallory" empty_world _
           (MongoUserRepository.toDomain
              (registered_doc example_hash "Alice@X.com " "pw" "Alice"
                 empty_world))
           [Tick 50]); reflexivity.
Defined.

(** X11. A user that has registered logs in: with the token issuance configured
    and MongoDB reachable, a later login under the registered email, in
    any letter case, returns a pair for the registered user when the
    password compares equal to the stored hash, and throws the message of
    a wrong password when it does not. *)
Theorem registered_user_logs_in (hashPassword : string -> string)
    (comparePasswords : string -> string -> bool)
    (email password name email' : string) (w w1 : World) (u : IUser)
    (events : list EnvAction) :
  RegisterUseCase_execute hashPassword email password name w = (Ok u, w1) ->
  schema_email (toLowerCase email') = schema_email (toLowerCase email) ->
  mongo_up (later events w1) = true ->
  issuance_configured w1 = true ->
  (comparePasswords password (hashPassword password) = true ->
   exists response,
     fst (LoginUseCase_execute comparePasswords email' password
            (later events w1)) = Ok response /\
     user response = mkSummary (bang (_id u)) (user_email u) name USER) /\
  (forall guess,
     comparePasswords guess (hashPassword password) = false ->
     fst (LoginUseCase_execute comparePasswords email' guess
            (later events w1)) = Throw "Invalid email or password").
Proof.
  intros Hreg Hsame Hup Hconf.
  pose proof (find_registered _ _ _ _ _ _ _ _ events Hreg Hsame) as Hfind.
  assert (Hconf' : issuance_configured (later events w1) = true).
  { unfold issuance_configured in *.
    destruct (later_keeps_stores events w1) as (_ & _ & -> & _).
    exact Hconf. }
  apply register_success_inv in Hreg. destruct Hreg as (_ & -> & _).
  set (d := registered_doc hashPassword email password name w) in *.
  assert (Hactive : doc_isActive d = true) by reflexivity.
  assert (Hhash : doc_password d = hashPassword password) by reflexivity.
  assert (Hsummary : summary_of_doc d
                     = mkSummary (bang (_id (MongoUserRepository.toDomain d)))
                         (user_email (MongoUserRepository.toDomain d)) name
                         USER) by reflexivity.
  clearbody d.
  split.
  - intros Hpw. rewrite login_outcome, Hup, Hfind, Hactive, Hhash, Hpw.
    destruct (issuance_configured_signs (payload_of_doc d)
                (later events w1) Hconf') as ((access & Ha) & (refresh & Hr)).
    rewrite Ha, Hr. cbn [fst]. eexists. split; [reflexivity|exact Hsummary].
  - intros guess Hpw.
    now rewrite login_outcome, Hup, Hfind, Hactive, Hhash, Hpw.
Qed.

Lemma registered_user_logs_in_witness :
  (exists response,
     fst (LoginUseCase_execute example_compare "alice@x.com" "pw"
            (later [Tick 50]
               (snd (RegisterUseCase_execute example_hash "Alice@X.com " "pw"
                       "Alice" empty_world)))) = Ok response /\
     user response = mkSummary "1" "alice@x.com" "Alice" USER) /\
  fst (LoginUseCase_execute example_compare "alice@x.com" "guess"
         (later [Tick 50]
            (snd (RegisterUseCase_execute example_hash "Alice@X.com " "pw"
                    "Alice" empty_world))))
  = Throw "Invalid email or password".
Proof.
  destruct (registered_user_logs_in example_hash example_compare
              "Alice@X.com " "pw" "Alice" "alice@x.com" empty_world
              (snd (RegisterUseCase_execute example_hash "Alice@X.com " "pw"
                      "Alice" empty_world))
              (MongoUserRepository.toDomain
                 (registered_doc example_hash "Alice@X.com " "pw" "Alice"
                    empty_world))
              [Tick 50] eq_refl eq_refl eq_refl eq_refl) as (Hright & Hwrong).
  split; [exact (Hright eq_refl)|exact (Hwrong "guess" eq_refl)].
Defined.

(** ** The protected routes *)

Lemma protected_cases (handler : Request -> M Response) (req : Request)
    (w : World) :
  match bearer_identity req w with
  | Some p =>
      protected handler req w
      = handler (mkRequest (authorization req) (body req) (Some p)) w
  | None =>
      exists cause, protected handler req w = (Ok (plain 401 cause), w)
  end.
Proof.
  unfold protected, bind. pose proof (authenticate_identity req w) as H.
  destruct (bearer_identity req w) as [p|].
  - now rewrite H.
  - destruct H as (cause & ->). unfold ret. eauto.
Qed.

(** X12. A request without a bearer token that is not blacklisted and verifies
    as an access token is answered 401 on [POST /logout], [GET /me] and
    [GET /admin/users], and nothing changes: no token is removed or
    blacklisted, whatever the body says. *)
Theorem unauthenticated_requests_change_nothing (req : Request) (w : World) :
  bearer_identity req w = None ->
  (exists cause, POST_logout req w = (Ok (plain 401 cause), w)) /\
  (exists cause, GET_me req w = (Ok (plain 401 cause), w)) /\
  (exists cause, GET_admin_users req w = (Ok (plain 401 cause), w)).
Proof.
  intros Hnone. unfold POST_logout, GET_me.
  pose proof (protected_cases AuthController.logout req w) as Hlogout.
  pose proof (protected_cases AuthController.getUser req w) as Hme.
  rewrite Hnone in *. split; [exact Hlogout|]. split; [exact Hme|].
  rewrite GET_admin_users_cases. unfold bearer_identity in Hnone.
  destruct (authorization req) as [[t|s]|]; eauto.
  destruct (blacklisted_in w t); eauto.
  destruct (jwt_verify t (JWT_SECRET (env w)) (now w)); [discriminate|eauto].
Qed.

Lemma unauthenticated_requests_change_nothing_witness :
  exists cause,
    POST_logout (client_logout_request (alice_refresh 1000)
                   (alice_refresh 1000))
                (alice_world 2000 [alice_refresh 1000])
    = (Ok (plain 401 cause), alice_world 2000 [alice_refresh 1000]).
Proof.
  exact (proj1 (unauthenticated_requests_change_nothing
                  (client_logout_request (alice_refresh 1000)
                     (alice_refresh 1000))
                  (alice_world 2000 [alice_refresh 1000]) eq_refl)).
Defined.

Lemma getUser_cases (req : Request) (w : World) (p : IAuthPayload) :
  req_user req = Some p ->
  AuthController.getUser req w
  = (Ok (if mongo_up w then
           match find_doc (has_id (userId p)) (mongo w) with
           | Some d =>
               mkResponse 200 (Some true) None (Some (DataUser (public_of d)))
           | None => failure 400 "User not found"
           end
         else failure 400 mongo_unreachable), w).
Proof.
  intros Hu. unfold AuthController.getUser, GetUserUseCase.execute,
    MongoUserRepository.findById, mongo_call, try_catch, bind, ret, throw.
  rewrite Hu. destruct (mongo_up w); [|reflexivity].
  destruct (find_doc (has_id (userId p)) (mongo w)); reflexivity.
Qed.

(** X13. [GET /me] shows the stored record of the user the token was issued
    for, without password and refresh tokens, and no other: 200 with that
    record, 400 when no user has the id of the token or MongoDB is
    unreachable, 401 without a valid token.  It changes nothing. *)
Theorem me_shows_the_record_of_the_token (req : Request) (w : World) :
  exists res,
    GET_me req w = (Ok res, w) /\
    match bearer_identity req w with
    | None => exists cause, res = plain 401 cause
    | Some p =>
        if mongo_up w then
          match find_doc (has_id (userId p)) (mongo w) with
          | Some d =>
              doc_id d = userId p /\
              res = mkResponse 200 (Some true) None
                               (Some (DataUser (public_of d)))
          | None => res = failure 400 "User not found"
          end
        else res = failure 400 mongo_unreachable
    end.
Proof.
  unfold GET_me. pose proof (protected_cases AuthController.getUser req w) as H.
  destruct (bearer_identity req w) as [p|].
  - rewrite H.
    rewrite (getUser_cases (mkRequest (authorization req) (body req) (Some p))
               w p eq_refl).
    eexists. split; [reflexivity|].
    destruct (mongo_up w); [|reflexivity].
    destruct (find_doc (has_id (userId p)) (mongo w)) as [d|] eqn:Hd;
      [|reflexivity].
    split; [exact (find_doc_has_id _ _ _ Hd)|reflexivity].
  - destruct H as (cause & ->). eauto.
Qed.

(** ** Requests without the required fields *)

(** X14. A request that lacks a required field, or has the empty string for it,
    is answered 400 by the controller before any use case runs, and
    nothing changes: email, password and name for the registration, email
    and password for the login, the refresh token for the rotation, the
    identity of the caller and the refresh token for the logout. *)
Theorem requests_without_required_fields_are_refused
    (hashPassword : string -> string)
    (comparePasswords : string -> string -> bool) (req : Request)
    (w : World) :
  (truthy_opt (body_email (body req)) && truthy_opt (body_password (body req))
   && truthy_opt (body_name (body req)) = false ->
   AuthController_register hashPassword req w
   = (Ok (plain 400 "Missing required fields"), w)) /\
  (truthy_opt (body_email (body req)) && truthy_opt (body_password (body req))
   = false ->
   AuthController_login comparePasswords req w
   = (Ok (plain 400 "Missing email or password"), w)) /\
  (truthy_token_opt (body_refreshToken (body req)) = false ->
   POST_refresh req w = (Ok (plain 400 "Missing refresh token"), w)) /\
  (req_user req = None \/
   truthy_token_opt (body_refreshToken (body req)) = false ->
   AuthController.logout req w
   = (Ok (plain 400 "Missing user or refresh token"), w)).
Proof.
  unfold AuthController_register, AuthController_login, POST_refresh,
    AuthController.refreshToken, AuthController.logout, try_catch, ret.
  destruct (body_email (body req)) as [email|],
    (body_password (body req)) as [password|],
    (body_name (body req)) as [name|],
    (body_refreshToken (body req)) as [r|], (req_user req) as [u|];
    cbn [truthy_opt truthy_token_opt andb];
    repeat split; intros H;
    try reflexivity; try discriminate;
    try (rewrite ?andb_false_r in H; rewrite H; reflexivity);
    try (destruct H as [H|H]; [discriminate|]; rewrite H; reflexivity);
    try (destruct H as [H|H]; discriminate || reflexivity).
Qed.

Lemma requests_without_required_fields_are_refused_witness :
  AuthController_register example_hash
    (mkRequest None (mkBody (Some "bob@x.com") (Some "") (Some "Bob") None)
               None) empty_world
  = (Ok (plain 400 "Missing required fields"), empty_world) /\
  AuthController.logout
    (mkRequest None (mkBody None None None (Some (alice_refresh 1000))) None)
    (alice_world 2000 [alice_refresh 1000])
  = (Ok (plain 400 "Missing user or refresh token"),
     alice_world 2000 [alice_refresh 1000]).
Proof.
  split.
  - exact (proj1 (requests_without_required_fields_are_refused example_hash
                    example_compare
                    (mkRequest None
                       (mkBody (Some "bob@x.com") (Some "") (Some "Bob") None)
                       None) empty_world) eq_refl).
  - exact (proj2 (proj2 (proj2
             (requests_without_required_fields_are_refused example_hash
                example_compare
                (mkRequest None
                   (mkBody None None None (Some (alice_refresh 1000))) None)
                (alice_world 2000 [alice_refresh 1000]))))
             (or_introl eq_refl)).
Defined.

(** ** Logout while Redis is unreachable *)





(** ** The users of the collection under the calls of the server *)

Lemma extends_refl (w : World) : extends w w.
Proof.
  split; [|auto]. exists []. split; [now rewrite app_nil_r|constructor].
Qed.

Lemma extends_trans (w1 w2 w3 : World) :
  extends w1 w2 -> extends w2 w3 -> extends w1 w3.
Proof.
  intros ((a1 & H1 & F1) & N1) ((a2 & H2 & F2) & N2). split; [|auto].
  exists (a1 ++ a2)%list. split.
  - now rewrite H2, H1, map_app, app_assoc.
  - apply Forall_app. now split.
Qed.

Lemma extends_same_collection (w w' : World) :
  mongo w' = mongo w -> extends w w'.
Proof.
  intros H. split; [|now rewrite H]. exists [].
  split; [now rewrite H, app_nil_r|constructor].
Qed.

Lemma update_first_with_tokens_profile (p : UserDoc -> bool) (at_ : Z)
    (f : list Token -> list Token) (docs : list UserDoc) :
  map profile (update_first p (with_tokens at_ f) docs) = map profile docs /\
  map doc_email (update_first p (with_tokens at_ f) docs)
  = map doc_email docs.
Proof.
  induction docs as [|d rest (IH1 & IH2)]; [now split|].
  cbn [update_first]. destruct (p d); cbn [map]; [now split|].
  now rewrite IH1, IH2.
Qed.

Lemma extends_update_tokens (w : World) (p : UserDoc -> bool) (at_ : Z)
    (f : list Token -> list Token) :
  extends w (set_mongo w (update_first p (with_tokens at_ f) (mongo w))).
Proof.
  destruct (update_first_with_tokens_profile p at_ f (mongo w)) as (Hp & He).
  split; cbn [set_mongo mongo].
  - exists []. split; [now rewrite Hp, app_nil_r|constructor].
  - now rewrite He.
Qed.

Lemma find_doc_absent_email (email : string) (docs : list UserDoc) :
  find_doc (has_email email) docs = None ->
  ~ In (schema_email (toLowerCase email)) (map doc_email docs).
Proof.
  induction docs as [|d rest IH]; [auto|]. cbn [find_doc map In].
  unfold has_email at 1.
  destruct (String.eqb_spec (doc_email d) (schema_email (toLowerCase email)))
    as [|Hne]; [discriminate|].
  intros H [Heq|Hin]; [contradiction|now apply IH].
Qed.

Lemma NoDup_snoc {A : Type} (l : list A) (x : A) :
  NoDup l -> ~ In x l -> NoDup (l ++ [x])%list.
Proof.
  intros Hl Hx. apply NoDup_app; [exact Hl|repeat constructor; auto|].
  intros y Hy [<-|[]]. contradiction.
Qed.

Lemma keeps_users_same {A} (c : M A) :
  (forall w, mongo (snd (c w)) = mongo w) -> keeps_users c.
Proof. intros H w. apply extends_same_collection, H. Qed.

Lemma keeps_users_ret {A} (a : A) : keeps_users (ret a).
Proof. now apply keeps_users_same. Qed.

Lemma keeps_users_throw {A} (message : string) :
  keeps_users (throw (A := A) message).
Proof. now apply keeps_users_same. Qed.

Lemma keeps_users_bind {A B} (c : M A) (k : A -> M B) :
  keeps_users c -> (forall a, keeps_users (k a)) -> keeps_users (bind c k).
Proof.
  intros Hc Hk w. unfold bind. specialize (Hc w).
  destruct (c w) as [[a|msg] w1]; cbn [snd] in *; [|exact Hc].
  specialize (Hk a w1). destruct (k a w1) as [r w2]. cbn [snd] in *.
  exact (extends_trans _ _ _ Hc Hk).
Qed.

Lemma keeps_users_try_catch {A} (c : M A) (h : string -> M A) :
  keeps_users c -> (forall msg, keeps_users (h msg)) ->
  keeps_users (try_catch c h).
Proof.
  intros Hc Hh w. unfold try_catch. specialize (Hc w).
  destruct (c w) as [[a|msg] w1]; cbn [snd] in *; [exact Hc|].
  specialize (Hh msg w1). destruct (h msg w1) as [r w2]. cbn [snd] in *.
  exact (extends_trans _ _ _ Hc Hh).
Qed.

Lemma keeps_users_isBlacklisted (x : Token) :
  keeps_users (TokenBlacklist.isBlacklisted x).
Proof.
  apply keeps_users_same. intros w. now rewrite isBlacklisted_keeps_world.
Qed.

Lemma keeps_users_add (x : Token) : keeps_users (TokenBlacklist.add x).
Proof.
  apply keeps_users_same. intros w. apply (add_keeps_rest x w).
Qed.

Lemma keeps_users_findById (id : string) :
  keeps_users (MongoUserRepository.findById id).
Proof.
  apply keeps_users_same. intros w.
  unfold MongoUserRepository.findById, mongo_call.
  destruct (mongo_up w); [|reflexivity].
  now destruct (find_doc _ (mongo w)).
Qed.

Lemma keeps_users_getRefreshTokens (id : string) :
  keeps_users (MongoUserRepository.getRefreshTokens id).
Proof.
  apply keeps_users_same. intros w.
  unfold MongoUserRepository.getRefreshTokens, mongo_call.
  destruct (mongo_up w); [|reflexivity].
  now destruct (find_doc _ (mongo w)).
Qed.

Lemma keeps_users_removeRefreshToken (id : string) (x : Token) :
  keeps_users (MongoUserRepository.removeRefreshToken id x).
Proof.
  intros w. unfold MongoUserRepository.removeRefreshToken, mongo_call.
  destruct (mongo_up w); [apply extends_update_tokens|apply extends_refl].
Qed.

Lemma keeps_users_addRefreshToken (id : string) (x : Token) :
  keeps_users (MongoUserRepository.addRefreshToken id x).
Proof.
  intros w. unfold MongoUserRepository.addRefreshToken, mongo_call.
  destruct (mongo_up w); [apply extends_update_tokens|apply extends_refl].
Qed.

Lemma keeps_users_generateAccessToken (p : IAuthPayload) :
  keeps_users (JwtUtil.generateAccessToken p).
Proof. now apply keeps_users_same. Qed.

Lemma keeps_users_generateRefreshToken (p : IAuthPayload) :
  keeps_users (JwtUtil.generateRefreshToken p).
Proof. now apply keeps_users_same. Qed.

Lemma keeps_users_verifyAccessToken (x : Token) :
  keeps_users (JwtUtil.verifyAccessToken x).
Proof. now apply keeps_users_same. Qed.

Lemma keeps_users_verifyRefreshToken (x : Token) :
  keeps_users (JwtUtil.verifyRefreshToken x).
Proof. now apply keeps_users_same. Qed.
Lemma keeps_users_register_use_case (hashPassword : string -> string)
    (email password name : string) :
  keeps_users (RegisterUseCase_execute hashPassword email password name).
Proof.
  intros w. rewrite register_outcome.
  destruct (mongo_up w); [|apply extends_refl].
  destruct (find_doc (has_email email) (mongo w)) eqn:Hfind;
    [apply extends_refl|].
  destruct (_ && _); [|apply extends_refl].
  cbn [snd]. unfold with_new_doc. split; cbn [mongo].
  - exists [registered_doc hashPassword email password name w].
    split; [now rewrite map_app|]. repeat constructor.
  - intros Hnodup. rewrite map_app. cbn [map registered_doc doc_email].
    apply NoDup_snoc; [exact Hnodup|].
    now apply find_doc_absent_email.
Qed.

Lemma keeps_users_findByEmail (email : string) :
  keeps_users (MongoUserRepository.findByEmail email).
Proof.
  apply keeps_users_same. intros w.
  unfold MongoUserRepository.findByEmail, mongo_call.
  destruct (mongo_up w); [|reflexivity].
  now destruct (find_doc _ (mongo w)).
Qed.

(** The handlers are built from the calls above. *)
Ltac keeps_users_step :=
  first
    [ apply keeps_users_ret | apply keeps_users_throw
    | apply keeps_users_isBlacklisted | apply keeps_users_add
    | apply keeps_users_findById | apply keeps_users_findByEmail
    | apply keeps_users_getRefreshTokens
    | apply keeps_users_removeRefreshToken
    | apply keeps_users_addRefreshToken
    | apply keeps_users_register_use_case
    | apply keeps_users_generateAccessToken
    | apply keeps_users_generateRefreshToken
    | apply keeps_users_verifyAccessToken
    | apply keeps_users_verifyRefreshToken
    | apply keeps_users_bind; [|intros ?]
    | apply keeps_users_try_catch; [|intros ?]
    | match goal with
      | |- keeps_users (match ?x with _ => _ end) => destruct x
      end ].

Lemma keeps_users_protected (handler : Request -> M Response)
    (req : Request) :
  (forall r, keeps_users (handler r)) -> keeps_users (protected handler req).
Proof.
  intros H. unfold protected, AuthMiddleware.authenticate.
  apply keeps_users_bind; [repeat keeps_users_step|].
  intros [res|req']; [apply keeps_users_ret|apply H].
Qed.

Lemma serve_extends (hashPassword : string -> string)
    (comparePasswords : string -> string -> bool) (c : Call) (w : World) :
  extends w (serve hashPassword comparePasswords c w).
Proof.
  destruct c as [req|req|req|req|req|a]; cbn [serve].
  - revert w. change (keeps_users (AuthController_register hashPassword req)).
    unfold AuthController_register. repeat keeps_users_step.
  - revert w. change (keeps_users (AuthController_login comparePasswords req)).
    unfold AuthController_login, LoginUseCase_execute.
    repeat keeps_users_step.
  - revert w. change (keeps_users (POST_refresh req)).
    unfold POST_refresh, AuthController.refreshToken,
      RefreshTokenUseCase.execute.
    repeat keeps_users_step.
  - revert w. change (keeps_users (POST_logout req)).
    apply keeps_users_protected. intros r.
    unfold AuthController.logout, LogoutUseCase.execute.
    repeat keeps_users_step.
  - revert w. change (keeps_users (GET_me req)).
    apply keeps_users_protected. intros r.
    unfold AuthController.getUser, GetUserUseCase.execute.
    repeat keeps_users_step.
  - apply extends_same_collection. apply (env_step_keeps_stores a w).
Qed.

Lemma afterwards_extends (hashPassword : string -> string)
    (comparePasswords : string -> string -> bool) (calls : list Call) :
  forall w, extends w (afterwards hashPassword comparePasswords calls w).
Proof.
  unfold afterwards.
  induction calls as [|c calls IH]; intros w; cbn [fold_left].
  - apply extends_refl.
  - exact (extends_trans _ _ _
             (serve_extends hashPassword comparePasswords c w)
             (IH (serve hashPassword comparePasswords c w))).
Qed.

(** X16. No sequence of requests to the register, login, refresh, logout and me
    routes, of outages and of clock ticks removes or reorders a stored
    user or changes its id, email, password hash, name, role, active flag
    or creation time; the users registered on the way are appended, each
    with the role user and active.  So no request makes anyone an admin
    or a moderator. *)
Theorem calls_keep_users_and_add_plain_ones
    (hashPassword : string -> string)
    (comparePasswords : string -> string -> bool) (calls : list Call)
    (w : World) :
  exists added,
    map profile (mongo (afterwards hashPassword comparePasswords calls w))
    = (map profile (mongo w) ++ map profile added)%list /\
    Forall (fun d => doc_role d = USER /\ doc_isActive d = true) added.
Proof.
  exact (proj1 (afterwards_extends hashPassword comparePasswords calls w)).
Qed.

(** X17. The emails of the collection stay distinct under every sequence of
    requests, outages and clock ticks: two users never share an email. *)
Theorem calls_keep_emails_distinct
    (hashPassword : string -> string)
    (comparePasswords : string -> string -> bool) (calls : list Call)
    (w : World) :
  NoDup (map doc_email (mongo w)) ->
  NoDup (map doc_email
           (mongo (afterwards hashPassword comparePasswords calls w))).
Proof.
  exact (proj2 (afterwards_extends hashPassword comparePasswords calls w)).
Qed.

Lemma calls_keep_emails_distinct_witness :
  NoDup (map doc_email
           (mongo (afterwards example_hash example_compare
                     busy_with_registration
                     (alice_world 2000 [alice_refresh 1000])))).
Proof.
  apply (calls_keep_emails_distinct example_hash example_compare
           busy_with_registration (alice_world 2000 [alice_refresh 1000])).
  cbn. repeat constructor. intros [].
Defined.

(** ** Every route answers *)





(** ** Logout while MongoDB is unreachable *)

(** X19. While MongoDB is unreachable the logout controller answers 400 with
    the message of the store, but it has handed the access token to the
    blacklist before: the access token is revoked as by a successful
    logout, while the refresh token stays in the user's list and, unless
    it is the access token itself, off the blacklist. *)
Theorem logout_with_database_down_revokes_only_the_access_token
    (w : World) (u : IAuthPayload) (r a : Token) :
  mongo_up w = false -> truthy_token r = true ->
  AuthController.logout (logout_request u r a) w
  = (Ok (failure 400 mongo_unreachable), snd (TokenBlacklist.add a w)) /\
  (forall id,
     tokens_of (snd (AuthController.logout (logout_request u r a) w)) id
     = tokens_of w id) /\
  (r <> a ->
   forall at_,
     revoked_at (snd (AuthController.logout (logout_request u r a) w)) r at_
     = revoked_at w r at_).
Proof.
  intros Hdown Hr.
  assert (Hlogout : AuthController.logout (logout_request u r a) w
            = (Ok (failure 400 mongo_unreachable),
               snd (TokenBlacklist.add a w))).
  { unfold AuthController.logout, logout_request, LogoutUseCase.execute.
    cbn [req_user body body_refreshToken authorization]. rewrite Hr.
    cbn [negb]. unfold try_catch, bind at 1.
    destruct (add_keeps_rest a w) as (Hok & _ & _ & _ & Hup & _).
    destruct (TokenBlacklist.add a w) as [[[]|msg] w1]; cbn [fst snd] in *;
      [|discriminate].
    unfold bind, MongoUserRepository.removeRefreshToken, mongo_call.
    now rewrite Hup, Hdown. }
  rewrite Hlogout. cbn [snd]. split; [reflexivity|]. split.
  - intros id. unfold tokens_of.
    destruct (add_keeps_rest a w) as (_ & -> & _). reflexivity.
  - intros Hne at_.
    destruct (add_effect a w) as [->|(j & e & _ & _ & _ & ->)];
      [reflexivity|].
    cbn [snd]. now apply revoked_at_other.
Qed.

Lemma logout_with_database_down_revokes_only_the_access_token_witness :
  fst (AuthController.logout
         (logout_request alice_payload (alice_refresh 1000)
                         (alice_access 1000)) alice_world_database_down)
  = Ok (failure 400 mongo_unreachable) /\
  fst (TokenBlacklist.isBlacklisted (alice_access 1000)
         (snd (AuthController.logout
                 (logout_request alice_payload (alice_refresh 1000)
                                 (alice_access 1000))
                 alice_world_database_down))) = Ok true /\
  revoked_at
    (snd (AuthController.logout
            (logout_request alice_payload (alice_refresh 1000)
                            (alice_access 1000)) alice_world_database_down))
    (alice_refresh 1000) 2000 = false.
Proof.
  destruct (logout_with_database_down_revokes_only_the_access_token
              alice_world_database_down alice_payload (alice_refresh 1000)
              (alice_access 1000) eq_refl eq_refl)
    as (Hlogout & _ & Hrefresh).
  split; [now rewrite Hlogout|]. split; [now rewrite Hlogout|].
  rewrite Hrefresh; [reflexivity|discriminate].
Defined.

(** ** From login to rotation *)



(** ** The stored form of an email *)

Lemma lower_ascii_idempotent (c : ascii) :
  lower_ascii (lower_ascii c) = lower_ascii c.
Proof. destruct c as [[] [] [] [] [] [] [] []]; reflexivity. Qed.

Lemma is_space_lower_ascii (c : ascii) :
  is_space (lower_ascii c) = is_space c.
Proof. destruct c as [[] [] [] [] [] [] [] []]; reflexivity. Qed.

Lemma toLowerCase_idempotent (s : string) :
  toLowerCase (toLowerCase s) = toLowerCase s.
Proof.
  induction s as [|c s IH]; [reflexivity|]. cbn [toLowerCase].
  now rewrite lower_ascii_idempotent, IH.
Qed.

Lemma toLowerCase_trim_start (s : string) :
  toLowerCase (trim_start s) = trim_start (toLowerCase s).
Proof.
  induction s as [|c s IH]; [reflexivity|]. cbn [toLowerCase trim_start].
  rewrite is_space_lower_ascii. now destruct (is_space c).
Qed.

Lemma toLowerCase_trim_end (s : string) :
  toLowerCase (trim_end s) = trim_end (toLowerCase s).
Proof.
  induction s as [|c s IH]; [reflexivity|]. cbn [toLowerCase trim_end].
  rewrite <- IH, is_space_lower_ascii.
  destruct (trim_end s) as [|c' r]; cbn [toLowerCase];
    [now destruct (is_space c)|reflexivity].
Qed.

Lemma trim_end_idempotent (s : string) : trim_end (trim_end s) = trim_end s.
Proof.
  induction s as [|c s IH]; [reflexivity|]. cbn [trim_end].
  destruct (trim_end s) as [|c' r] eqn:Hs.
  - destruct (is_space c) eqn:Hc; [reflexivity|]. cbn [trim_end].
    now rewrite Hc.
  - cbn [trim_end]. cbn [trim_end] in IH.
    destruct (trim_end r) as [|c'' r'] eqn:Hr.
    + now rewrite IH.
    + now rewrite IH.
Qed.

(** [trim_start] of a string that does not start with white space. *)
Lemma trim_start_trim_end (s : string) :
  trim_start s = s -> trim_start (trim_end s) = trim_end s.
Proof.
  destruct s as [|c s]; [reflexivity|]. cbn [trim_start trim_end].
  destruct (is_space c) eqn:Hc.
  - intros H. exfalso. clear Hc.
    assert (Hlen : forall x,
               (String.length (trim_start x) <= String.length x)%nat).
    { induction x as [|a x IHx]; cbn [trim_start String.length]; [lia|].
      destruct (is_space a); cbn [String.length]; lia. }
    specialize (Hlen s). rewrite H in Hlen. cbn [String.length] in Hlen. lia.
  - intros _. destruct (trim_end s); cbn [trim_start]; now rewrite Hc.
Qed.

Lemma trim_start_idempotent (s : string) :
  trim_start (trim_start s) = trim_start s.
Proof.
  induction s as [|c s IH]; [reflexivity|]. cbn [trim_start].
  destruct (is_space c) eqn:Hc; [exact IH|]. cbn [trim_start].
  now rewrite Hc.
Qed.

Lemma trim_idempotent (s : string) : trim (trim s) = trim s.
Proof.
  unfold trim.
  rewrite (trim_start_trim_end (trim_start s) (trim_start_idempotent s)).
  apply trim_end_idempotent.
Qed.

Lemma schema_email_normal (email : string) :
  schema_email (toLowerCase (schema_email (toLowerCase email)))
  = schema_email (toLowerCase email).
Proof.
  unfold schema_email, trim.
  rewrite !toLowerCase_trim_end, !toLowerCase_trim_start,
    !toLowerCase_idempotent.
  apply trim_idempotent.
Qed.

(** X21. A registration stores the email in lower case and without white space
    around it, and returns it in that form; [findByEmail] on the email as
    returned finds the registered user, at any later time while MongoDB is
    reachable. *)
Theorem registered_user_is_found_by_returned_email
    (hashPassword : string -> string) (email password name : string)
    (w w1 : World) (u : IUser) (events : list EnvAction) :
  RegisterUseCase_execute hashPassword email password name w = (Ok u, w1) ->
  mongo_up (later events w1) = true ->
  user_email u = trim (toLowerCase email) /\
  toLowerCase (user_email u) = user_email u /\
  trim (user_email u) = user_email u /\
  fst (MongoUserRepository.findByEmail (user_email u) (later events w1))
  = Ok (Some u).
Proof.
  intros Hreg Hup.
  assert (Hfind : find_doc (has_email (user_email u))
                           (mongo (later events w1))
                  = Some (registered_doc hashPassword email password name w)).
  { apply (find_registered _ _ _ _ _ _ _ _ events Hreg).
    apply register_success_inv in Hreg. destruct Hreg as (_ & -> & _).
    apply schema_email_normal. }
  apply register_success_inv in Hreg. destruct Hreg as (_ & -> & _).
  cbn [MongoUserRepository.toDomain registered_doc user_email doc_email]
    in *.
  split; [unfold schema_email; now rewrite toLowerCase_idempotent|].
  split.
  { unfold schema_email, trim.
    now rewrite toLowerCase_trim_end, toLowerCase_trim_start,
      !toLowerCase_idempotent. }
  split; [apply trim_idempotent|].
  unfold MongoUserRepository.findByEmail, mongo_call. rewrite Hup.
  change (fun d : UserDoc =>
            String.eqb (doc_email d)
              (schema_email
                 (toLowerCase (schema_email (toLowerCase email)))))
    with (has_email (schema_email (toLowerCase email))).
  now rewrite Hfind.
Qed.

Lemma registered_user_is_found_by_returned_email_witness :
  fst (MongoUserRepository.findByEmail "alice@x.com"
         (later [Tick 50]
            (snd (RegisterUseCase_execute example_hash "Alice@X.com " "pw"
                    "Alice" empty_world))))
  = Ok (Some (MongoUserRepository.toDomain
                (registered_doc example_hash "Alice@X.com " "pw" "Alice"
                   empty_world))).
Proof.
  exact (proj2 (proj2 (proj2
    (registered_user_is_found_by_returned_email example_hash "Alice@X.com "
       "pw" "Alice" empty_world
       (snd (RegisterUseCase_execute example_hash "Alice@X.com " "pw" "Alice"
               empty_world))
       (MongoUserRepository.toDomain
          (registered_doc example_hash "Alice@X.com " "pw" "Alice"
             empty_world))
       [Tick 50] eq_refl eq_refl)))).
Defined.

(** ** Whose tokens a logout removes *)

Lemma keeps_tokens_of_bind (id : string) {A B} (c : M A) (k : A -> M B) :
  keeps_tokens_of id c -> (forall a, keeps_tokens_of id (k a)) ->
  keeps_tokens_of id (bind c k).
Proof.
  intros Hc Hk w. unfold bind. specialize (Hc w).
  destruct (c w) as [[a|msg] w1]; cbn [snd] in *; [|exact Hc].
  now rewrite Hk.
Qed.

Lemma keeps_tokens_of_try_catch (id : string) {A} (c : M A)
    (h : string -> M A) :
  keeps_tokens_of id c -> (forall msg, keeps_tokens_of id (h msg)) ->
  keeps_tokens_of id (try_catch c h).
Proof.
  intros Hc Hh w. unfold try_catch. specialize (Hc w).
  destruct (c w) as [[a|msg] w1]; cbn [snd] in *; [exact Hc|].
  now rewrite Hh.
Qed.

Lemma keeps_tokens_of_add (id : string) (x : Token) :
  keeps_tokens_of id (TokenBlacklist.add x).
Proof.
  intros w. unfold tokens_of.
  now destruct (add_keeps_rest x w) as (_ & -> & _).
Qed.

Lemma keeps_tokens_of_remove_elsewhere (id id' : string) (x : Token) :
  id <> id' ->
  keeps_tokens_of id (MongoUserRepository.removeRefreshToken id' x).
Proof.
  intros Hne w. unfold MongoUserRepository.removeRefreshToken, mongo_call.
  destruct (mongo_up w); [|reflexivity].
  now apply tokens_of_update_elsewhere.
Qed.

Lemma keeps_tokens_of_logout (id : string) (req : Request) :
  (forall u, req_user req = Some u -> userId u <> id) ->
  keeps_tokens_of id (AuthController.logout req).
Proof.
  intros Hother. unfold AuthController.logout.
  apply keeps_tokens_of_try_catch; [|now intros msg w].
  destruct (req_user req) as [u|]; [|now intros w].
  destruct (body_refreshToken (body req)) as [r|]; [|now intros w].
  destruct (negb (truthy_token r)); [now intros w|].
  apply keeps_tokens_of_bind.
  - destruct (authorization req) as [[a|s]|];
      [apply keeps_tokens_of_add|now intros w|now intros w].
  - intros _. apply keeps_tokens_of_bind; [|now intros _ w].
    unfold LogoutUseCase.execute. apply keeps_tokens_of_bind.
    + apply keeps_tokens_of_remove_elsewhere. intros Heq.
      now apply (Hother u eq_refl).
    + intros _. apply keeps_tokens_of_add.
Qed.

(** X22. [POST /logout] removes refresh tokens only from the list of the user
    the access token was issued for: the list of every other user is left
    as it is, whatever refresh token the body names. *)
Theorem logout_touches_only_the_callers_list (req : Request) (w : World)
    (id : string) :
  (forall p, bearer_identity req w = Some p -> userId p <> id) ->
  tokens_of (snd (POST_logout req w)) id = tokens_of w id.
Proof.
  intros Hother. unfold POST_logout.
  pose proof (protected_cases AuthController.logout req w) as H.
  destruct (bearer_identity req w) as [p|].
  - rewrite H. apply keeps_tokens_of_logout. cbn [req_user].
    intros u [= <-]. now apply Hother.
  - destruct H as (cause & ->). reflexivity.
Qed.

Lemma logout_touches_only_the_callers_list_witness :
  tokens_of (snd (POST_logout
                    (client_logout_request bob_refresh (alice_access 1000))
                    alice_and_bob)) "2" = [bob_refresh].
Proof.
  apply (logout_touches_only_the_callers_list
           (client_logout_request bob_refresh (alice_access 1000))
           alice_and_bob "2").
  intros p. vm_compute. intros [= <-]. discriminate.
Defined.

(** ** Two logins in one second *)

Lemma find_doc_update_tokens (p q : UserDoc -> bool) (at_ : Z)
    (f : list Token -> list Token) (docs : list UserDoc) (d : UserDoc) :
  (forall x, p (with_tokens at_ f x) = p x) ->
  find_doc p docs = Some d ->
  exists d',
    find_doc p (update_first q (with_tokens at_ f) docs) = Some d' /\
    (d' = d \/ d' = with_tokens at_ f d).
Proof.
  intros Hp. induction docs as [|x rest IH]; [discriminate|].
  cbn [find_doc update_first].
  destruct (q x); cbn [find_doc]; rewrite ?Hp; destruct (p x); eauto.
  intros [= ->]. eauto.
Qed.

Lemma pull_push_same (t : Token) (l : list Token) :
  pull t (push t l) = pull t l.
Proof.
  unfold pull, push. rewrite filter_app. cbn [filter].
  rewrite Token_eqb_refl. cbn [negb]. apply app_nil_r.
Qed.

(** X23. Tokens carry no nonce and [iat] counts whole seconds, so a second
    login of the same user within the second of the first returns the
    very same access and refresh token.  The refresh token is then
    registered twice, and one logout takes both copies out: the two
    sessions are one. *)
Theorem logins_in_one_second_share_their_tokens
    (comparePasswords : string -> string -> bool) (email password : string)
    (w w1 : World) (response : IAuthResponse) :
  LoginUseCase_execute comparePasswords email password w
  = (Ok response, w1) ->
  exists w2,
    LoginUseCase_execute comparePasswords email password w1
    = (Ok response, w2) /\
    tokens_of w2 (summary_id (user response))
    = push (refreshToken response)
        (push (refreshToken response)
           (tokens_of w (summary_id (user response)))) /\
    tokens_of (snd (LogoutUseCase.execute (summary_id (user response))
                      (refreshToken response) w2))
              (summary_id (user response))
    = pull (refreshToken response)
        (tokens_of w (summary_id (user response))).
Proof.
  rewrite login_outcome.
  destruct (mongo_up w) eqn:Hup; [|discriminate].
  destruct (find_doc (has_email email) (mongo w)) as [d|] eqn:Hd;
    [|discriminate].
  destruct (doc_isActive d) eqn:Hactive; [|discriminate].
  destruct (comparePasswords password (doc_password d)) eqn:Hpw;
    [|discriminate].
  destruct (jwt_sign _ (JWT_SECRET (env w)) _ _) as [access|] eqn:Ha;
    [|discriminate].
  destruct (jwt_sign _ (JWT_REFRESH_SECRET (env w)) _ _) as [refresh|] eqn:Hr;
    [|discriminate].
  intros [= <- <-]. cbn [user refreshToken summary_id summary_of_doc
    summary_of MongoUserRepository.toDomain _id bang].
  set (w1 := set_mongo w (update_first (has_id (doc_id d))
                            (with_tokens (now w) (push refresh)) (mongo w))).
  pose proof (find_doc_own_id _ _ _ Hd) as Hfound.
  assert (Hfound1 : find_doc (has_id (doc_id d)) (mongo w1) <> None)
    by now apply find_doc_update_found.
  destruct (find_doc_update_tokens (has_email email) (has_id (doc_id d))
              (now w) (push refresh) (mongo w) d (fun x => eq_refl) Hd)
    as (d' & Hd' & Hsame).
  assert (Hfields : doc_isActive d' = doc_isActive d /\
                    doc_password d' = doc_password d /\
                    payload_of_doc d' = payload_of_doc d /\
                    summary_of_doc d' = summary_of_doc d /\
                    doc_id d' = doc_id d)
    by (destruct Hsame as [->| ->]; repeat split).
  destruct Hfields as (Hact' & Hpw' & Hpay' & Hsum' & Hid').
  assert (Hlogin : LoginUseCase_execute comparePasswords email password w1
            = (Ok (mkAuthResponse access refresh (summary_of_doc d)),
               set_mongo w1 (update_first (has_id (doc_id d))
                               (with_tokens (now w) (push refresh))
                               (mongo w1)))).
  { rewrite login_outcome.
    change (mongo_up w1) with (mongo_up w). change (env w1) with (env w).
    change (now w1) with (now w). rewrite Hup.
    change (mongo w1)
      with (update_first (has_id (doc_id d))
              (with_tokens (now w) (push refresh)) (mongo w)) at 1.
    rewrite Hd', Hact', Hpw', Hpay', Hsum', Hid', Hactive, Hpw, Ha, Hr.
    reflexivity. }
  eexists. split; [exact Hlogin|]. split.
  - rewrite (tokens_of_update_found w1 _ _ _ Hfound1). unfold w1.
    now rewrite (tokens_of_update_found w _ _ _ Hfound).
  - unfold LogoutUseCase.execute, bind,
      MongoUserRepository.removeRefreshToken, mongo_call.
    cbn [set_mongo mongo_up w1]. rewrite Hup. cbn [fst snd].
    rewrite keeps_tokens_of_add.
    match goal with
    | |- tokens_of (set_mongo ?x _) _ = _ =>
        rewrite (tokens_of_update_found x)
    end.
    + rewrite (tokens_of_update_found w1 _ _ _ Hfound1). unfold w1.
      rewrite (tokens_of_update_found w _ _ _ Hfound).
      now rewrite !pull_push_same.
    + now apply find_doc_update_found.
Qed.

Lemma logins_in_one_second_share_their_tokens_witness :
  exists w2,
    LoginUseCase_execute example_compare "alice@x.com" "pw" alice_logged_in
    = (Ok (mkAuthResponse (alice_access 1000) (alice_refresh 1000)
             (mkSummary "1" "alice@x.com" "Alice" USER)), w2) /\
    tokens_of w2 "1" = [alice_refresh 1000; alice_refresh 1000] /\
    tokens_of (snd (LogoutUseCase.execute "1" (alice_refresh 1000) w2)) "1"
    = [].
Proof.
  exact (logins_in_one_second_share_their_tokens example_compare
           "alice@x.com" "pw" (alice_registered 1000) alice_logged_in
           (mkAuthResponse (alice_access 1000) (alice_refresh 1000)
              (mkSummary "1" "alice@x.com" "Alice" USER))
           eq_refl).
Defined.

(** ** From login to the protected routes *)

(** X24. The access token a login returned opens [GET /me]: at every later
    second of its lifetime, with MongoDB reachable and the token not
    blacklisted, the route answers 200 with the stored record of the user
    that logged in; from its expiry on it answers 401. *)
Theorem login_token_opens_me
    (comparePasswords : string -> string -> bool) (email password : string)
    (w w1 : World) (response : IAuthResponse) (events : list EnvAction) :
  LoginUseCase_execute comparePasswords email password w
  = (Ok response, w1) ->
  mongo_up (later events w1) = true ->
  blacklisted_in (later events w1) (accessToken response) = false ->
  exists span,
    ms (env_or (JWT_EXPIRE (env w)) "7d") = Some span /\
    if now (later events w1) <? now w + span / 1000
    then exists d,
           find_doc (has_id (summary_id (user response)))
                    (mongo (later events w1)) = Some d /\
           GET_me (bearer_request (accessToken response)) (later events w1)
           = (Ok (mkResponse 200 (Some true) None
                             (Some (DataUser (public_of d)))),
              later events w1)
    else GET_me (bearer_request (accessToken response)) (later events w1)
         = (Ok (plain 401 "Invalid or expired token"), later events w1).
Proof.
  rewrite login_outcome.
  destruct (mongo_up w); [|discriminate].
  destruct (find_doc (has_email email) (mongo w)) as [d|] eqn:Hd;
    [|discriminate].
  destruct (doc_isActive d); [|discriminate].
  destruct (comparePasswords password (doc_password d)); [|discriminate].
  destruct (jwt_sign _ (JWT_SECRET (env w)) _ _) as [access|] eqn:Ha;
    [|discriminate].
  destruct (jwt_sign _ (JWT_REFRESH_SECRET (env w)) _ _) as [refresh|];
    [|discriminate].
  intros [= <- <-]. cbn [accessToken user]. intros Hup Hbl.
  apply jwt_sign_inv in Ha. destruct Ha as (ka & sa & Hsa & Hka & Hma & ->).
  exists sa. split; [exact Hma|].
  set (w1 := set_mongo w (update_first (has_id (doc_id d))
                            (with_tokens (now w) (push refresh)) (mongo w)))
    in *.
  set (a := Signed (mkJwt ka (payload_of_doc d) (now w)
                      (Some (now w + sa / 1000)))) in *.
  assert (Hver : jwt_verify a (JWT_SECRET (env (later events w1)))
                   (now (later events w1))
                 = if now (later events w1) <? now w + sa / 1000
                   then Some (payload_of_doc d) else None).
  { destruct (later_keeps_stores events w1) as (_ & _ & -> & _).
    change (env w1) with (env w). rewrite Hsa. unfold a.
    now rewrite (jwt_verify_own _ _ _ _ _ Hka). }
  unfold GET_me, protected, bind. rewrite authenticate_cases.
  cbn [bearer_request authorization body]. rewrite Hbl, Hver.
  destruct (now (later events w1) <? now w + sa / 1000); [|reflexivity].
  rewrite (getUser_cases
             (mkRequest (Some (Bearer a)) (mkBody None None None None)
                        (Some (payload_of_doc d)))
             (later events w1) (payload_of_doc d) eq_refl), Hup.
  cbn [payload_of_doc payload_of MongoUserRepository.toDomain _id bang
       userId summary_of_doc summary_of summary_id].
  destruct (find_doc (has_id (doc_id d)) (mongo (later events w1)))
    as [d0|] eqn:Hd0; [eauto|].
  exfalso. revert Hd0.
  destruct (later_keeps_stores events w1) as (-> & _).
  apply find_doc_update_found. exact (find_doc_own_id _ _ _ Hd).
Qed.

Lemma login_token_opens_me_witness :
  (exists d,
     find_doc (has_id "1") (mongo (later [Tick 604799] alice_logged_in))
     = Some d /\
     GET_me (bearer_request (alice_access 1000))
            (later [Tick 604799] alice_logged_in)
     = (Ok (mkResponse 200 (Some true) None (Some (DataUser (public_of d)))),
        later [Tick 604799] alice_logged_in)) /\
  GET_me (bearer_request (alice_access 1000))
         (later [Tick 604800] alice_logged_in)
  = (Ok (plain 401 "Invalid or expired token"),
     later [Tick 604800] alice_logged_in).
Proof.
  split.
  - destruct (login_token_opens_me example_compare "alice@x.com" "pw"
                (alice_registered 1000) alice_logged_in
                (mkAuthResponse (alice_access 1000) (alice_refresh 1000)
                   (mkSummary "1" "alice@x.com" "Alice" USER))
                [Tick 604799] eq_refl eq_refl eq_refl)
      as (span & Hspan & H).
    vm_compute in Hspan. injection Hspan as <-. exact H.
  - destruct (login_token_opens_me example_compare "alice@x.com" "pw"
                (alice_registered 1000) alice_logged_in
                (mkAuthResponse (alice_access 1000) (alice_refresh 1000)
                   (mkSummary "1" "alice@x.com" "Alice" USER))
                [Tick 604800] eq_refl eq_refl eq_refl)
      as (span & Hspan & H).
    vm_compute in Hspan. injection Hspan as <-. exact H.
Defined.
